(** * Twikoo Cloudflare worker: comment retrieval and mutation engine

    A shallow embedding of [src/index.js].  The worker is a request
    handler over a D1 (SQLite) database; its handlers are [async]
    functions that read and write module-level variables ([config],
    [accessToken], [requestTimes], [db]) and may throw.  They are
    embedded as computations in a state-and-exception monad over a
    [World] record that holds the tables and those variables.

    Functions imported from [twikoo-func], [uuid] and the JavaScript
    runtime are not part of the worker's source; they are the fields of
    the record [Lib], and the results below hold for every value of it. *)

From stdpp Require Import gmap strings list sorting.
From Stdlib Require Import ZArith Lia Ascii.

(** ** JavaScript values *)

(** The JSON scalars that occur in requests and in the configuration
    map.  Numbers are the integers. *)
Inductive JVal :=
| JNull
| JBool (b : bool)
| JNum (n : Z)
| JStr (s : string).

Global Instance JVal_eq_dec : EqDecision JVal.
Proof. solve_decision. Defined.

(** [!!v] of JavaScript, for a property that may be absent
    ([None] is [undefined]). *)
Definition truthy (v : option JVal) : bool :=
  match v with
  | None | Some JNull => false
  | Some (JBool b) => b
  | Some (JNum n) => negb (n =? 0)%Z
  | Some (JStr s) => negb (String.eqb s "")
  end.

Definition truthy_str (v : option string) : bool := truthy (JStr <$> v).
Definition truthy_num (v : option Z) : bool := truthy (JNum <$> v).

(** [n || d] for a number [n] that may be [NaN] ([None]). *)
Definition num_or (n : option Z) (d : Z) : Z :=
  match n with
  | None => d
  | Some n => if (n =? 0)%Z then d else n
  end.

(** [Array.prototype.splice(start, 1)]: a negative [start] counts from
    the end, and a position past the end removes nothing. *)
Definition splice1 {A} (l : list A) (start : Z) : list A :=
  let len := Z.of_nat (length l) in
  let from := if (start <? 0)%Z then Z.max (len + start) 0 else Z.min start len in
  delete (Z.to_nat from) l.

Inductive JsError :=
| Error (msg : string)
| TypeError (msg : string).

Definition message (e : JsError) : string :=
  match e with Error m | TypeError m => m end.

(** ** Data model *)

(** One row of table [comment]: the twenty columns that
    [saveCommentStmt] binds, in its order, text columns as strings and
    the flags and timestamps as integers.  Column [like] holds the JSON
    text of an array of identity tokens; the model keeps the array
    itself, so [JSON.parse] and [JSON.stringify] on it are the
    identity. *)
Module Comment.
Record t := mk {
  _id : string; uid : string; nick : string; mail : string;
  mailMd5 : string; link : string; ua : string; ip : string;
  master : Z; url : string; href : string; comment : string;
  pid : string; rid : string; isSpam : Z; created : Z; updated : Z;
  like : list string; top : Z; avatar : string
}.

Definition with_like (likes : list string) (c : t) : t :=
  mk (_id c) (uid c) (nick c) (mail c) (mailMd5 c) (link c) (ua c) (ip c)
     (master c) (url c) (href c) (comment c) (pid c) (rid c) (isSpam c)
     (created c) (updated c) likes (top c) (avatar c).
End Comment.

Global Instance Comment_eq_dec : EqDecision Comment.t.
Proof. solve_decision. Defined.

(** The configuration is a JSON object used as a map. *)
Abbreviation Config := (gmap string JVal).

(** The JSON body of a request: the fields read by the handlers. *)
Module Event.
Record t := mk {
  event : option string;
  accessToken : option string;
  url : option string;
  before : option Z;
  id : option string;
  set : option Config;
  urls : option (list string);
  includeReply : option bool;
  pageSize : option Z;
  config : option Config;
  password : option string
}.

(** The body [{}], which [fetch] uses when the body is not JSON. *)
Definition empty : t :=
  mk None None None None None None None None None None None.
End Event.

(** What the handlers read of the [Request] object.  [body] tells
    whether [request.body] is a stream ([true]) or [null]; [json] is
    the outcome of [request.json()], [None] when it rejects. *)
Module Request.
Record t := mk {
  method : string;
  ip : option string;
  origin : option string;
  body : bool;
  json : option Event.t
}.
End Request.

(** An entry of the list built by [getRecentComments]. *)
Module Recent.
Record t := mk {
  id : string; url : string; nick : string; avatar : string;
  mailMd5 : string; link : string; comment : string;
  commentText : string; created : Z
}.
End Recent.

(** The [data] field of a response.  [D] is the type of what
    [parseComment] returns. *)
Inductive Data (D : Type) :=
| Parsed (d : D)
| Rows (rows : list Comment.t)
| Recents (l : list Recent.t).
Arguments Parsed {D} d.
Arguments Rows {D} rows.
Arguments Recents {D} l.

(** The response object [res]; an absent field is [None]. *)
Module Res.
Record t (D : Type) := mk {
  code : option Z;
  message : option string;
  data : option (Data D);
  more : option bool;
  count : option Z;
  accessToken : option string;
  version : option string
}.
Arguments mk {D}.
Arguments code {D}.
Arguments message {D}.
Arguments data {D}.
Arguments more {D}.
Arguments count {D}.
Arguments accessToken {D}.
Arguments version {D}.

(** [{}] *)
Definition empty {D} : t D := mk None None None None None None None.
(** [{ code }] and [{ code, message }] *)
Definition of_code {D} (c : Z) : t D := mk (Some c) None None None None None None.
Definition of_code_message {D} (c : Z) (m : string) : t D :=
  mk (Some c) (Some m) None None None None None.
Definition of_message {D} (m : string) : t D :=
  mk None (Some m) None None None None None.
Definition with_accessToken {D} (tok : string) (r : t D) : t D :=
  mk (code r) (message r) (data r) (more r) (count r) (Some tok) (version r).
End Res.

(** ** The D1 database *)

(** A prepared statement of [DBBinding] with its arguments bound; the
    constructors carry the names of the accessors of the class, and
    the arguments come in the order of the [?n] placeholders. *)
Inductive Bound :=
| commentCountQuery (url : string) (spam : Z) (uid : string)
| commentQuery (url : string) (spam : Z) (uid : string)
    (before top limit : Z)
| replyQuery (url : string) (spam : Z) (uid : string) (rids : list string)
| commentSetStmt (fields : list string) (values : list JVal) (id : string)
| commentDeleteStmt (id : string)
| commentByIdQuery (id : string)
| updateLikeStmt (id : string) (like : list string)
| commentCountSinceByIpQuery (since : Z) (ip : option string)
| commentCountSinceQuery (since : Z)
| recentCommentsByUrlQuery (all : Z) (url : string) (includeReply : bool)
    (limit : Z)
| readConfigQuery
| writeConfigStmt (value : Config).

(** Modelled from the spec: the schema of table [config] is not under
    [src/]; the persisted layout has one single-row configuration
    table, and the statements of [DBBinding] read and update its
    [value] column.  [ConfigTable] is the [value] of that row: the
    object its JSON text denotes, [None] when the text is empty. *)
Abbreviation ConfigTable := (option Config).

(** The module-level variables of the worker ([config], [accessToken],
    [requestTimes]) and the database behind [db]: the rows of table
    [comment], the row of table [config], the statement caches of
    [DBBinding], and the list [executed] of the statements run so
    far, oldest first.  [now] is the clock, [uuids] counts the
    identifiers drawn from [uuidv4].  [config] is an object from the
    first [readConfig] of [fetch] on. *)
Module World.
Record t := mk {
  tbl_comment : list Comment.t;
  tbl_config : ConfigTable;
  replyQueryCache : gmap nat string;
  commentSetStmtCache : gmap (list string) string;
  executed : list Bound;
  config : Config;
  accessToken : string;
  requestTimes : gmap (option string) Z;
  now : Z;
  uuids : nat
}.

Definition with_tbl_comment (v : list Comment.t) (w : t) : t :=
  mk v (tbl_config w) (replyQueryCache w) (commentSetStmtCache w)
     (executed w) (config w) (accessToken w) (requestTimes w) (now w) (uuids w).
Definition with_tbl_config (v : ConfigTable) (w : t) : t :=
  mk (tbl_comment w) v (replyQueryCache w) (commentSetStmtCache w)
     (executed w) (config w) (accessToken w) (requestTimes w) (now w) (uuids w).
Definition with_replyQueryCache (v : gmap nat string) (w : t) : t :=
  mk (tbl_comment w) (tbl_config w) v (commentSetStmtCache w)
     (executed w) (config w) (accessToken w) (requestTimes w) (now w) (uuids w).
Definition with_commentSetStmtCache (v : gmap (list string) string) (w : t) : t :=
  mk (tbl_comment w) (tbl_config w) (replyQueryCache w) v
     (executed w) (config w) (accessToken w) (requestTimes w) (now w) (uuids w).
Definition with_executed (v : list Bound) (w : t) : t :=
  mk (tbl_comment w) (tbl_config w) (replyQueryCache w) (commentSetStmtCache w)
     v (config w) (accessToken w) (requestTimes w) (now w) (uuids w).
Definition with_config (v : Config) (w : t) : t :=
  mk (tbl_comment w) (tbl_config w) (replyQueryCache w) (commentSetStmtCache w)
     (executed w) v (accessToken w) (requestTimes w) (now w) (uuids w).
Definition with_accessToken (v : string) (w : t) : t :=
  mk (tbl_comment w) (tbl_config w) (replyQueryCache w) (commentSetStmtCache w)
     (executed w) (config w) v (requestTimes w) (now w) (uuids w).
Definition with_requestTimes (v : gmap (option string) Z) (w : t) : t :=
  mk (tbl_comment w) (tbl_config w) (replyQueryCache w) (commentSetStmtCache w)
     (executed w) (config w) (accessToken w) v (now w) (uuids w).
Definition with_uuids (v : nat) (w : t) : t :=
  mk (tbl_comment w) (tbl_config w) (replyQueryCache w) (commentSetStmtCache w)
     (executed w) (config w) (accessToken w) (requestTimes w) (now w) v.
End World.

(** ** The monad of the handlers *)

Inductive Outcome (A : Type) :=
| Return (a : A)
| Throw (e : JsError).
Arguments Return {A} a.
Arguments Throw {A} e.

Definition M (A : Type) : Type := World.t → Outcome A * World.t.

Global Instance M_ret : MRet M := λ A a w, (Return a, w).
Global Instance M_bind : MBind M := λ A B f m w,
  match m w with
  | (Return a, w') => f a w'
  | (Throw e, w') => (Throw e, w')
  end.

Global Instance M_fmap : FMap M := λ A B f m, a ← m; mret (f a).

Definition throw {A} (e : JsError) : M A := λ w, (Throw e, w).
Definition try_catch {A} (m : M A) (h : JsError → M A) : M A := λ w,
  match m w with
  | (Return a, w') => (Return a, w')
  | (Throw e, w') => h e w'
  end.
Definition get : M World.t := λ w, (Return w, w).
Definition modify (f : World.t → World.t) : M unit := λ w, (Return (), f w).

(** Binding [undefined] to a placeholder makes D1 throw, a plain
    [Error]. *)
Definition arg {A} (v : option A) : M A :=
  match v with
  | Some a => mret a
  | None => throw (Error "D1_TYPE_ERROR: Type 'undefined' not supported for value 'undefined'")
  end.

(** ** What the worker imports *)

(** The response codes of [twikoo-func/utils/constants]. *)
Module RES_CODE.
Record t := mk {
  SUCCESS : Z; NO_PARAM : Z; FAIL : Z; EVENT_NOT_EXIST : Z;
  PASS_EXIST : Z; PASS_NOT_EXIST : Z; PASS_NOT_MATCH : Z; NEED_LOGIN : Z
}.
End RES_CODE.

(** The functions and constants that [index.js] imports or gets from
    its runtime.  [validate ev fields] is [Some m] when the call throws
    an error with message [m].  [parseInt] is [None] for [NaN].
    [uuidv4 n] is the [n]-th identifier the generator hands out.
    [set_columns fields values id] is what SQLite makes of the
    statement [UPDATE comment SET f1 = ?, ... WHERE _id = ?], whose
    text holds the fields as they are, run with the values and [id]
    bound: the rows of table [comment] after it as a function of the
    rows before it, [None] when SQLite rejects the statement.  For
    fields that are column names it changes rows with that identifier
    only; a field may as well hold text that changes the [WHERE]
    clause.  [handler] stands for the handlers of [fetch] that
    are not embedded below, by event name, and [submit] for the steps
    of [commentSubmit] after the rate limiter. *)
Record Lib := {
  Dto : Type;
  RES : RES_CODE.t;
  MAX_REQUEST_TIMES : Z;
  md5 : option string → string;
  parseInt : option JVal → option Z;
  validate : Event.t → list string → option string;
  parseComment : list Comment.t → string → Config → Dto;
  uuidv4 : nat → string;
  localhostRegex : string → bool;
  set_columns :
    list string → list JVal → string → option (list Comment.t → list Comment.t);
  handler : string → Event.t → Request.t → M (Res.t Dto);
  submit : Event.t → Request.t → M (Res.t Dto)
}.

(** ** Statements against table [comment] *)

(** [(isSpam != ?2 OR uid = ?3)] *)
Definition shown (spam : Z) (uid : string) (c : Comment.t) : Prop :=
  Comment.isSpam c ≠ spam ∨ Comment.uid c = uid.

(** [ORDER BY created DESC]; rows with the same [created] keep the
    order the merge leaves them in. *)
Definition newer_first : relation Comment.t :=
  λ a b, (Comment.created b ≤ Comment.created a)%Z.

Global Instance newer_first_dec a b : Decision (newer_first a b).
Proof. unfold newer_first. apply _. Defined.

Definition order_by_created_desc : list Comment.t → list Comment.t :=
  merge_sort newer_first.

(** [LIMIT n]; a negative [n] is no limit in SQLite. *)
Definition sql_limit {A} (n : Z) (l : list A) : list A :=
  if (n <? 0)%Z then l else take (Z.to_nat n) l.

(** The [WHERE] clauses. *)
Definition where_commentCount (url : string) (spam : Z) (uid : string)
    (c : Comment.t) : Prop :=
  Comment.url c = url ∧ Comment.rid c = "" ∧ shown spam uid c.

Definition where_comment (url : string) (spam : Z) (uid : string)
    (before top : Z) (c : Comment.t) : Prop :=
  Comment.url c = url ∧ shown spam uid c ∧
  (Comment.created c < before)%Z ∧ Comment.top c = top ∧ Comment.rid c = "".

Definition where_reply (url : string) (spam : Z) (uid : string)
    (rids : list string) (c : Comment.t) : Prop :=
  Comment.url c = url ∧ shown spam uid c ∧ Comment.rid c ∈ rids.

Definition where_since_ip (since : Z) (ip : option string) (c : Comment.t) : Prop :=
  (since < Comment.created c)%Z ∧ Some (Comment.ip c) = ip.

Global Instance shown_dec spam uid c : Decision (shown spam uid c).
Proof. unfold shown. apply _. Defined.
Global Instance where_commentCount_dec url spam uid c :
  Decision (where_commentCount url spam uid c).
Proof. unfold where_commentCount. apply _. Defined.
Global Instance where_comment_dec url spam uid before top c :
  Decision (where_comment url spam uid before top c).
Proof. unfold where_comment. apply _. Defined.
Global Instance where_reply_dec url spam uid rids c :
  Decision (where_reply url spam uid rids c).
Proof. unfold where_reply. apply _. Defined.
Global Instance where_since_ip_dec since ip c :
  Decision (where_since_ip since ip c).
Proof. unfold where_since_ip. apply _. Defined.

(** The rows a [SELECT] yields (for a [COUNT( * )], the rows counted). *)
Definition select (q : Bound) (tbl : list Comment.t) : list Comment.t :=
  match q with
  | commentCountQuery url spam uid =>
      filter (where_commentCount url spam uid) tbl
  | commentQuery url spam uid before top limit =>
      sql_limit limit
        (order_by_created_desc (filter (where_comment url spam uid before top) tbl))
  | replyQuery url spam uid rids =>
      filter (where_reply url spam uid rids) tbl
  | commentByIdQuery id =>
      filter (λ c, Comment._id c = id) tbl
  | commentCountSinceByIpQuery since ip =>
      filter (where_since_ip since ip) tbl
  | commentCountSinceQuery since =>
      filter (λ c, (since < Comment.created c)%Z) tbl
  | _ => []
  end.

Definition log (q : Bound) : M unit :=
  modify (λ w, World.with_executed (World.executed w ++ [q]) w).

(** [recentCommentsByUrlQuery] has [AND] directly before [LIMIT] in its
    text, which SQLite rejects. *)
Definition rows_of (q : Bound) : M (list Comment.t) :=
  match q with
  | recentCommentsByUrlQuery _ _ _ _ =>
      throw (Error "D1_ERROR: near LIMIT: syntax error")
  | _ => log q;; w ← get; mret (select q (World.tbl_comment w))
  end.

(** The object [.all()] resolves to. *)
Record D1Result := { results : list Comment.t }.

(** [.all()], [.first('count')] and [.first()]. *)
Definition all (q : Bound) : M D1Result :=
  rows ← rows_of q; mret {| results := rows |}.
Definition first_count (q : Bound) : M Z :=
  rows ← rows_of q; mret (Z.of_nat (length rows)).
Definition first (q : Bound) : M (option Comment.t) :=
  rows ← rows_of q; mret (head rows).
(** [db.readConfigQuery.first('value')] *)
Definition first_value : M (option Config) :=
  log readConfigQuery;; w ← get; mret (World.tbl_config w).

Definition update_where_id (id : string) (f : Comment.t → Comment.t)
    (tbl : list Comment.t) : list Comment.t :=
  (λ c, if decide (Comment._id c = id) then f c else c) <$> tbl.

(** ** The order of [Array.prototype.sort] *)

(** A string of the model is the UTF-8 text of a JavaScript string.
    [utf8_decode] reads the code points off the bytes: one byte below
    128, else two bytes below 224, three below 240, else four; a
    sequence cut short at the end of the text reads as U+FFFD. *)
Fixpoint utf8_decode (bytes : list N) : list N :=
  match bytes with
  | [] => []
  | b0 :: rest =>
      if (b0 <? 128)%N then b0 :: utf8_decode rest
      else
        match rest with
        | [] => [65533%N]
        | b1 :: rest1 =>
            if (b0 <? 224)%N then
              ((b0 - 192) * 64 + (b1 - 128))%N :: utf8_decode rest1
            else
              match rest1 with
              | [] => [65533%N]
              | b2 :: rest2 =>
                  if (b0 <? 240)%N then
                    ((b0 - 224) * 4096 + (b1 - 128) * 64 + (b2 - 128))%N
                    :: utf8_decode rest2
                  else
                    match rest2 with
                    | [] => [65533%N]
                    | b3 :: rest3 =>
                        ((b0 - 240) * 262144 + (b1 - 128) * 4096
                         + (b2 - 128) * 64 + (b3 - 128))%N
                        :: utf8_decode rest3
                    end
              end
        end
  end.

(** The UTF-16 code units of a code point: itself below 0x10000, else
    a surrogate pair. *)
Definition utf16 (cp : N) : list N :=
  if (cp <? 65536)%N then [cp]
  else [(55296 + (cp - 65536) / 1024)%N; (56320 + (cp - 65536) mod 1024)%N].

(** The code units of the JavaScript string. *)
Definition code_units (s : string) : list N :=
  utf8_decode (N_of_ascii <$> String.list_ascii_of_string s) ≫= utf16.

(** The comparison of two strings by their code units, which [sort]
    without a comparator uses: the first unit that differs decides,
    and a prefix comes first. *)
Fixpoint units_le (a b : list N) : bool :=
  match a, b with
  | [], _ => true
  | _ :: _, [] => false
  | x :: a, y :: b =>
      if (x <? y)%N then true else if (y <? x)%N then false else units_le a b
  end.

Definition js_le : relation string :=
  λ a b, units_le (code_units a) (code_units b) = true.

Global Instance js_le_dec a b : Decision (js_le a b).
Proof. unfold js_le. apply _. Defined.

Section Worker.
Context (lib : Lib).

(** [.run()] *)
Definition run (q : Bound) : M unit :=
  match q with
  | updateLikeStmt id like =>
      log q;;
      modify (λ w, World.with_tbl_comment
        (update_where_id id (Comment.with_like like) (World.tbl_comment w)) w)
  | commentDeleteStmt id =>
      log q;;
      modify (λ w, World.with_tbl_comment
        (filter (λ c, Comment._id c ≠ id) (World.tbl_comment w)) w)
  | commentSetStmt fields values id =>
      match set_columns lib fields values id with
      | Some update =>
          log q;;
          modify (λ w, World.with_tbl_comment (update (World.tbl_comment w)) w)
      | None => throw (Error "D1_ERROR")
      end
  | writeConfigStmt value =>
      log q;; modify (World.with_tbl_config (Some value))
  | _ => log q
  end.

(** ** Identity *)

Definition getUid : M string := w ← get; mret (World.accessToken w).

Definition isAdmin : M bool :=
  uid ← getUid;
  w ← get;
  mret (bool_decide (World.config w !! "ADMIN_PASS" = Some (JStr (md5 lib (Some uid))))).

Definition getIp (request : Request.t) : option string := Request.ip request.

Definition check (event : Event.t) (requiredParams : list string) : M unit :=
  match validate lib event requiredParams with
  | Some m => throw (Error m)
  | None => mret ()
  end.

(** ** Reading comments *)

Definition MAX_TIMESTAMP_MILLIS : Z := 41025312000000.
Definition MAX_QUERY_LIMIT : Z := 500.

(** [isAdminUser ? 2 : 1], the value compared with column [isSpam]. *)
Definition spam_arg (isAdminUser : bool) : Z := if isAdminUser then 2 else 1.

(** [JSON.parse] of column [like], which the model keeps parsed. *)
Definition parseLike (comment : Comment.t) : Comment.t := comment.

(** [replyQueryTemplate] with [{{RIDS}}] replaced by [rids]. *)
Definition replyQueryTemplate (rids : string) : string :=
  "SELECT * FROM comment
WHERE
  url = ?1 AND
  (isSpam != ?2 OR uid = ?3) AND
  rid IN (" +:+ rids +:+ ")".

Definition getReplyQuery (numParams : nat) : M string :=
  w ← get;
  match World.replyQueryCache w !! numParams with
  | Some cached => mret cached
  | None =>
      let result := replyQueryTemplate (String.concat ", " (replicate numParams "?")) in
      modify (λ w, World.with_replyQueryCache
        (<[numParams := result]> (World.replyQueryCache w)) w);;
      mret result
  end.

Definition commentGet (event : Event.t) : M (Res.t (Dto lib)) :=
  try_catch
    (check event ["url"];;
     uid ← getUid;
     isAdminUser ← isAdmin;
     w ← get;
     let config := World.config w in
     let limit := num_or (parseInt lib (config !! "COMMENT_PAGE_SIZE")) 8 in
     let spam := spam_arg isAdminUser in
     url ← arg (Event.url event);
     count ← first_count (commentCountQuery url spam uid);
     main ← results <$> all (commentQuery url spam uid
                   (default MAX_TIMESTAMP_MILLIS (Event.before event)) 0
                   (limit + 1));
     let more := bool_decide (limit < Z.of_nat (length main))%Z in
     let main := if more then splice1 main limit else main in
     main ← (if negb (truthy (config !! "TOP_DISABLED"))
                && negb (truthy_num (Event.before event))
             then
               top ← results <$> all (commentQuery url spam uid
                            MAX_TIMESTAMP_MILLIS 1 MAX_QUERY_LIMIT);
               mret (top ++ main)
             else mret main);
     _ ← getReplyQuery (length main);
     reply ← results <$> all (replyQuery url spam uid (Comment._id <$> main));
     mret (Res.mk None None
             (Some (Parsed (parseComment lib (parseLike <$> (main ++ reply)) uid config)))
             (Some more) (Some count) None None))
    (λ e, mret (Res.mk None (Some (message e)) (Some (Rows [])) None None None None)).

(** ** Admin mutations *)

(** [commentSetStmtTemplate] with [{{FIELDS}}] replaced by [fields]. *)
Definition commentSetStmtTemplate (fields : string) : string :=
  "UPDATE comment
SET " +:+ fields +:+ "
WHERE _id = ?".

Definition getCommentSetStmt (fields : list string) : M string :=
  w ← get;
  match World.commentSetStmtCache w !! fields with
  | Some cached => mret cached
  | None =>
      let result := commentSetStmtTemplate
        (String.concat ", " ((λ field, field +:+ " = ?") <$> fields)) in
      modify (λ w, World.with_commentSetStmtCache
        (<[fields := result]> (World.commentSetStmtCache w)) w);;
      mret result
  end.

Definition need_login : Res.t (Dto lib) :=
  Res.of_code_message (RES_CODE.NEED_LOGIN (RES lib)) "请先登录".

Definition commentSetForAdmin (event : Event.t) : M (Res.t (Dto lib)) :=
  isAdminUser ← isAdmin;
  if (isAdminUser : bool) then
    check event ["id"; "set"];;
    match Event.set event with
    | None => throw (TypeError "Cannot convert undefined or null to object")
    | Some set =>
        let fields := merge_sort js_le (elements (dom set : gset string)) in
        _ ← getCommentSetStmt fields;
        id ← arg (Event.id event);
        run (commentSetStmt fields ((λ field, default JNull (set !! field)) <$> fields) id);;
        mret (Res.of_code (RES_CODE.SUCCESS (RES lib)))
    end
  else mret need_login.

Definition commentDeleteForAdmin (event : Event.t) : M (Res.t (Dto lib)) :=
  isAdminUser ← isAdmin;
  if (isAdminUser : bool) then
    check event ["id"];;
    id ← arg (Event.id event);
    run (commentDeleteStmt id);;
    mret (Res.of_code (RES_CODE.SUCCESS (RES lib)))
  else mret need_login.

(** ** Likes *)

Definition like (id uid : string) : M unit :=
  comment ← first (commentByIdQuery id);
  match comment with
  | None => mret ()
  | Some comment =>
      let likes := Comment.like comment in
      let likes :=
        match list_find (λ item, item = uid) likes with
        | None => likes ++ [uid]
        | Some _ => filter (λ item, item ≠ uid) likes
        end in
      run (updateLikeStmt id likes)
  end.

Definition commentLike (event : Event.t) : M (Res.t (Dto lib)) :=
  check event ["id"];;
  id ← arg (Event.id event);
  uid ← getUid;
  like id uid;;
  mret Res.empty.

(** ** Submission rate limiter *)

Definition limitFilter (request : Request.t) : M unit :=
  w ← get;
  let config := World.config w in
  let limitPerMinute := default 10%Z (parseInt lib (config !! "LIMIT_PER_MINUTE")) in
  let limitPerMinuteAll := default 10%Z (parseInt lib (config !! "LIMIT_PER_MINUTE_ALL")) in
  countByIp ← (if (limitPerMinute =? 0)%Z then mret 0%Z
               else first_count (commentCountSinceByIpQuery
                                   (World.now w - 600000) (getIp request)));
  count ← (if (limitPerMinuteAll =? 0)%Z then mret 0%Z
           else first_count (commentCountSinceQuery (World.now w - 600000)));
  if (limitPerMinute <? countByIp)%Z then throw (Error "发言频率过高")
  else if (limitPerMinuteAll <? count)%Z then throw (Error "评论太火爆啦 >_< 请稍后再试")
  else mret ().

Definition commentSubmit (event : Event.t) (request : Request.t)
    : M (Res.t (Dto lib)) :=
  check event ["url"; "ua"; "comment"];;
  limitFilter request;;
  submit lib event request.

End Worker.

(** ** String helpers of the entry point *)

(** [.replace(/-/g, '')] *)
Fixpoint remove_dashes (s : string) : string :=
  match s with
  | EmptyString => EmptyString
  | String a s =>
      if Ascii.eqb a "-"%char then remove_dashes s else String a (remove_dashes s)
  end.

(** [.split(',')]; [cur] is the current piece, reversed. *)
Fixpoint split_go (cur : string) (s : string) : list string :=
  match s with
  | EmptyString => [String.rev cur]
  | String a s =>
      if Ascii.eqb a ","%char then String.rev cur :: split_go EmptyString s
      else split_go (String a cur) s
  end.
Definition split_comma : string → list string := split_go EmptyString.

(** [.replace(/\/$/, '')] *)
Definition strip_slash (s : string) : string :=
  match String.rev s with
  | String a r => if Ascii.eqb a "/"%char then String.rev r else s
  | EmptyString => s
  end.

(** What [fetch] resolves to: the status and the JSON body.  The
    response headers are not part of the model. *)
Module Response.
Record t (D : Type) := mk { status : Z; body : option (Res.t D) }.
Arguments mk {D}.
Arguments status {D}.
Arguments body {D}.
End Response.

Section Entry.
Context (lib : Lib).

(** ** Recent comments *)

(** [Promise.all(urls.map(f))] *)
Fixpoint for_each {A B} (f : A → M B) (l : list A) : M (list B) :=
  match l with
  | [] => mret []
  | x :: l => y ← f x; ys ← for_each f l; mret (y :: ys)
  end.

Definition getRecentComments (event : Event.t) : M (Res.t (Dto lib)) :=
  try_catch
    (let pageSize :=
       (λ n, if (100 <? n)%Z then 100%Z else n) <$> Event.pageSize event in
     (* [event.urls && event.urls.length] *)
     let some_urls :=
       match Event.urls event with Some (_ :: _) => true | _ => false end in
     if some_urls then
       includeReply ← arg (Event.includeReply event);
       _ ← all (recentCommentsByUrlQuery 1 EmptyString includeReply
                  (num_or pageSize 10));
       (* [result] is the object of [.all()], which has no [map] *)
       throw (TypeError "result.map is not a function")
     else
       match Event.urls event with
       | None =>
           throw (TypeError "Cannot read properties of undefined (reading 'map')")
       | Some urls =>
           result ← for_each (λ url,
             includeReply ← arg (Event.includeReply event);
             all (recentCommentsByUrlQuery 0 url includeReply (num_or pageSize 10)))
             urls;
           match result with
           | [] => mret (Res.mk None None (Some (Recents [])) None None None None)
           | _ :: _ =>
               (* an element is the object of [.all()], without [_id] *)
               throw (TypeError "Cannot read properties of undefined (reading 'toString')")
           end
       end)
    (λ e, mret (Res.of_message (message e))).

(** ** Configuration store *)

Definition readConfig : M Config :=
  configStr ← first_value;
  let config := default ∅ configStr in
  modify (World.with_config config);;
  mret config.

Definition writeConfig (newConfig : option Config) : M unit :=
  match newConfig with
  | None => throw (TypeError "Cannot convert undefined or null to object")
  | Some newConfig =>
      if bool_decide (size newConfig = 0%nat) then mret ()
      else
        try_catch
          (old ← readConfig;
           run lib (writeConfigStmt (newConfig ∪ old)))
          (λ e, mret ())
  end.

Definition setConfig (event : Event.t) : M (Res.t (Dto lib)) :=
  isAdminUser ← isAdmin lib;
  if (isAdminUser : bool) then
    writeConfig (Event.config event);;
    mret (Res.of_code (RES_CODE.SUCCESS (RES lib)))
  else mret (need_login lib).

Definition setPassword (event : Event.t) : M (Res.t (Dto lib)) :=
  isAdminUser ← isAdmin lib;
  w ← get;
  if truthy (World.config w !! "ADMIN_PASS") && negb isAdminUser then
    mret (Res.of_code_message (RES_CODE.PASS_EXIST (RES lib)) "请先登录再修改密码")
  else
    let ADMIN_PASS := md5 lib (Event.password event) in
    writeConfig (Some {[ "ADMIN_PASS" := JStr ADMIN_PASS ]});;
    mret (Res.of_code (RES_CODE.SUCCESS (RES lib))).

(** [config] is an object whenever a handler runs, so the first test
    of the source, [!config], is false. *)
Definition login (password : option string) : M (Res.t (Dto lib)) :=
  w ← get;
  if negb (truthy (World.config w !! "ADMIN_PASS")) then
    mret (Res.of_code_message (RES_CODE.PASS_NOT_EXIST (RES lib)) "未配置管理密码")
  else if bool_decide (World.config w !! "ADMIN_PASS" ≠ Some (JStr (md5 lib password))) then
    mret (Res.of_code_message (RES_CODE.PASS_NOT_MATCH (RES lib)) "密码错误")
  else mret (Res.of_code (RES_CODE.SUCCESS (RES lib))).

(** ** The entry point *)

Definition VERSION : string := "1.6.40".

(** [requestTimes] is a plain object used as a map from the header
    value to a number.  The finite map stands for it on header values
    that are strings and name no property that a plain object
    inherits (the list [inherited] below): for an inherited name
    without an entry of its own the source reads the inherited
    property, and the counter becomes a string. *)
Definition protect (request : Request.t) : M unit :=
  let ip := getIp request in
  w ← get;
  let times := (num_or (World.requestTimes w !! ip) 0 + 1)%Z in
  modify (World.with_requestTimes (<[ip := times]> (World.requestTimes w)));;
  if (MAX_REQUEST_TIMES lib <? times)%Z then throw (Error "Too Many Requests")
  else mret ().

Definition anonymousSignIn (event : Event.t) : M string :=
  match Event.accessToken event with
  | Some token =>
      if truthy (Some (JStr token)) then mret token
      else
        w ← get;
        modify (World.with_uuids (S (World.uuids w)));;
        mret (remove_dashes (uuidv4 lib (World.uuids w)))
  | None =>
      w ← get;
      modify (World.with_uuids (S (World.uuids w)));;
      mret (remove_dashes (uuidv4 lib (World.uuids w)))
  end.

Definition getAllowedOrigin (origin : string) : M string :=
  w ← get;
  if localhostRegex lib origin then mret origin
  else if truthy (World.config w !! "CORS_ALLOW_ORIGIN") then
    match World.config w !! "CORS_ALLOW_ORIGIN" with
    | Some (JStr list) =>
        if bool_decide (origin ∈ strip_slash <$> split_comma list)
        then mret origin else mret EmptyString
    | _ => throw (TypeError "config.CORS_ALLOW_ORIGIN.split is not a function")
    end
  else mret origin.

(** [allowCors] only fills the headers; what remains of it here is
    that it may throw. *)
Definition allowCors (request : Request.t) : M unit :=
  if truthy_str (Request.origin request) then
    _ ← getAllowedOrigin (default EmptyString (Request.origin request));
    mret ()
  else mret ().

(** The events whose handlers are taken from [handler lib]. *)
Definition not_embedded : list string :=
  [ "GET_FUNC_VERSION"; "COMMENT_GET_FOR_ADMIN"; "COMMENT_IMPORT_FOR_ADMIN";
    "COUNTER_GET"; "GET_PASSWORD_STATUS"; "GET_CONFIG"; "GET_CONFIG_FOR_ADMIN";
    "GET_COMMENTS_COUNT"; "EMAIL_TEST"; "UPLOAD_IMAGE";
    "COMMENT_EXPORT_FOR_ADMIN" ].

(** The [switch] of [fetch]. *)
Definition dispatch (event : Event.t) (request : Request.t)
    : M (Res.t (Dto lib)) :=
  let name := default EmptyString (Event.event event) in
  if decide (Event.event event = Some "COMMENT_GET") then commentGet lib event
  else if decide (Event.event event = Some "COMMENT_SET_FOR_ADMIN") then
    commentSetForAdmin lib event
  else if decide (Event.event event = Some "COMMENT_DELETE_FOR_ADMIN") then
    commentDeleteForAdmin lib event
  else if decide (Event.event event = Some "COMMENT_LIKE") then commentLike lib event
  else if decide (Event.event event = Some "COMMENT_SUBMIT") then
    commentSubmit lib event request
  else if decide (Event.event event = Some "SET_PASSWORD") then setPassword event
  else if decide (Event.event event = Some "SET_CONFIG") then setConfig event
  else if decide (Event.event event = Some "LOGIN") then login (Event.password event)
  else if decide (Event.event event = Some "GET_RECENT_COMMENTS") then
    getRecentComments event
  else if decide (name ∈ not_embedded) then handler lib name event request
  else if truthy_str (Event.event event) then
    mret (Res.of_code_message (RES_CODE.EVENT_NOT_EXIST (RES lib))
            "请更新 Twikoo 云函数至最新版本")
  else
    mret (Res.mk (Some (RES_CODE.NO_PARAM (RES lib)))
            (Some "Twikoo 云函数运行正常，请参考 https://twikoo.js.org/frontend.html 完成前端的配置")
            None None None None (Some VERSION)).

(** The [try] block of [fetch]: [None] when it returns the 204
    response to an [OPTIONS] request, else the value of [res] after
    the block, which in the [catch] case is [{}] with [code] and
    [message] set. *)
Definition fetch_try (event : Event.t) (request : Request.t)
    : M (option (Res.t (Dto lib))) :=
  try_catch
    (protect request;;
     token ← anonymousSignIn event;
     modify (World.with_accessToken token);;
     _ ← readConfig;
     allowCors request;;
     if String.eqb (Request.method request) "OPTIONS" then mret None
     else res ← dispatch event request; mret (Some res))
    (λ e, mret (Some (Res.of_code_message (RES_CODE.FAIL (RES lib)) (message e)))).

(** [request.body] is a stream or [null], never the parsed JSON, so
    [request.body.accessToken] is [undefined] on a stream and throws
    on [null]; the test is only reached when [res.code] is falsy. *)
Definition fetch (request : Request.t) : M (Response.t (Dto lib)) :=
  let event := default Event.empty (Request.json request) in
  res ← fetch_try event request;
  match res with
  | None => mret (Response.mk 204 None)
  | Some res =>
      if negb (truthy (JNum <$> Res.code res)) then
        if Request.body request then
          w ← get;
          mret (Response.mk 200 (Some (Res.with_accessToken (World.accessToken w) res)))
        else throw (TypeError "Cannot read properties of null (reading 'accessToken')")
      else mret (Response.mk 200 (Some res))
  end.

End Entry.

(** ** Reading the outcome of [commentGet] *)

Section CommentGetValues.
Context (lib : Lib).

(** The values [commentGet] computes on the way, as functions of the
    world it starts in. *)
Definition is_admin (w : World.t) : bool :=
  bool_decide (World.config w !! "ADMIN_PASS"
               = Some (JStr (md5 lib (Some (World.accessToken w))))).

Definition page_limit (w : World.t) : Z :=
  num_or (parseInt lib (World.config w !! "COMMENT_PAGE_SIZE")) 8.

Definition cursor (event : Event.t) : Z :=
  default MAX_TIMESTAMP_MILLIS (Event.before event).

Definition pinned_fetch (event : Event.t) (w : World.t) : bool :=
  negb (truthy (World.config w !! "TOP_DISABLED"))
  && negb (truthy_num (Event.before event)).

Definition main_query (u : string) (event : Event.t) (w : World.t) : Bound :=
  commentQuery u (spam_arg (is_admin w)) (World.accessToken w)
    (cursor event) 0 (page_limit w + 1).

Definition pinned_query (u : string) (w : World.t) : Bound :=
  commentQuery u (spam_arg (is_admin w)) (World.accessToken w)
    MAX_TIMESTAMP_MILLIS 1 MAX_QUERY_LIMIT.

Definition fetched (u : string) (event : Event.t) (w : World.t) : list Comment.t :=
  select (main_query u event w) (World.tbl_comment w).

Definition page (u : string) (event : Event.t) (w : World.t) : list Comment.t :=
  if bool_decide (page_limit w < Z.of_nat (length (fetched u event w)))%Z
  then splice1 (fetched u event w) (page_limit w)
  else fetched u event w.

Definition pinned (u : string) (event : Event.t) (w : World.t) : list Comment.t :=
  if pinned_fetch event w then select (pinned_query u w) (World.tbl_comment w)
  else [].

Definition reply_query (u : string) (event : Event.t) (w : World.t) : Bound :=
  replyQuery u (spam_arg (is_admin w)) (World.accessToken w)
    (Comment._id <$> (pinned u event w ++ page u event w)).

Definition replies (u : string) (event : Event.t) (w : World.t) : list Comment.t :=
  select (reply_query u event w) (World.tbl_comment w).

Definition count_query (u : string) (w : World.t) : Bound :=
  commentCountQuery u (spam_arg (is_admin w)) (World.accessToken w).

(** The statements one call runs, in order. *)
Definition statements (u : string) (event : Event.t) (w : World.t) : list Bound :=
  [count_query u w; main_query u event w]
  ++ (if pinned_fetch event w then [pinned_query u w] else [])
  ++ [reply_query u event w].

(** The rows that match the non-pinned query, newest first. *)
Definition matching (u : string) (event : Event.t) (w : World.t) : list Comment.t :=
  order_by_created_desc
    (filter (where_comment u (spam_arg (is_admin w)) (World.accessToken w)
               (cursor event) 0)
            (World.tbl_comment w)).

(** The world with the pinned rows taken out of table [comment]. *)
Definition without_pinned (w : World.t) : World.t :=
  World.with_tbl_comment
    (filter (λ c, Comment.top c ≠ 1%Z) (World.tbl_comment w)) w.

(** The statement cache and the world after the call. *)
Definition reply_cache_after (numParams : nat) (cache : gmap nat string)
    : gmap nat string :=
  match cache !! numParams with
  | Some _ => cache
  | None =>
      <[numParams :=
          replyQueryTemplate (String.concat ", " (replicate numParams "?"))]> cache
  end.

Definition world_after (u : string) (event : Event.t) (w : World.t) : World.t :=
  World.with_replyQueryCache
    (reply_cache_after (length (pinned u event w ++ page u event w))
       (World.replyQueryCache w))
    (World.with_executed (World.executed w ++ statements u event w) w).

(** The response of a call that does not throw. *)
Definition response (u : string) (event : Event.t) (w : World.t) : Res.t (Dto lib) :=
  Res.mk None None
    (Some (Parsed (parseComment lib
       (pinned u event w ++ page u event w ++ replies u event w)
       (World.accessToken w) (World.config w))))
    (Some (bool_decide (page_limit w < Z.of_nat (length (fetched u event w)))%Z))
    (Some (Z.of_nat (length (select (count_query u w) (World.tbl_comment w)))))
    None None.

End CommentGetValues.

(** ** The visibility rule in the words of the specification *)

(** A comment is visible to a requester if it is not marked spam, or
    the requester is its author, or the requester is the admin. *)
Definition visible_to (admin : bool) (uid : string) (c : Comment.t) : Prop :=
  Comment.isSpam c ≠ 1%Z ∨ Comment.uid c = uid ∨ admin = true.

Global Instance visible_to_dec admin uid c : Decision (visible_to admin uid c).
Proof. unfold visible_to. apply _. Defined.

(** The main stream in the words of the specification: a visible,
    non-pinned, top-level comment of the page, created before the
    cursor. *)
Definition in_stream (u : string) (admin : bool) (uid : string) (before : Z)
    (c : Comment.t) : Prop :=
  Comment.url c = u ∧ visible_to admin uid c ∧ Comment.top c = 0%Z
  ∧ Comment.rid c = "" ∧ (Comment.created c < before)%Z.

Global Instance in_stream_dec u admin uid before c :
  Decision (in_stream u admin uid before c).
Proof. unfold in_stream. apply _. Defined.

(** The stored spam flag is a boolean. *)
Definition spam_flag_ok (c : Comment.t) : Prop :=
  Comment.isSpam c = 0%Z ∨ Comment.isSpam c = 1%Z.

(** ** A library instance and sample data *)

(** A stand-in for [twikoo-func]: [validate] asks for a truthy value of
    each required field, [parseInt] reads a number that is stored as a
    number, [parseComment] hands the rows back, and the response codes
    are those of [twikoo-func/utils/constants]. *)
Definition sample_field (event : Event.t) (name : string) : bool :=
  if String.eqb name "url" then truthy_str (Event.url event)
  else if String.eqb name "id" then truthy_str (Event.id event)
  else if String.eqb name "set" then bool_decide (is_Some (Event.set event))
  else true.

Definition sample_lib : Lib := {|
  Dto := list Comment.t;
  RES := RES_CODE.mk 0 100 1000 1001 1010 1022 1023 1024;
  MAX_REQUEST_TIMES := 250;
  md5 := λ s, "md5:" +:+ default "undefined" s;
  parseInt := λ v, match v with Some (JNum n) => Some n | _ => None end;
  validate := λ event requiredParams,
    if forallb (sample_field event) requiredParams then None
    else Some "missing parameter";
  parseComment := λ rows _ _, rows;
  uuidv4 := λ n, String.concat "-" (replicate (S n) "4f1a");
  localhostRegex := λ origin, String.eqb origin "http://localhost";
  set_columns := λ _ _ _, Some id;
  handler := λ _ _ _, mret Res.empty;
  submit := λ _ _, mret Res.empty
|}.

Definition row (id uid url rid : string) (isSpam created top : Z)
    (like : list string) (ip : string) : Comment.t :=
  Comment.mk id uid "nick" "" "" "" "ua" ip 0 url url "text" rid rid
    isSpam created created like top "".

(** A page with two visible comments, one hidden comment of [bob], one
    pinned comment and one reply. *)
Definition sample_rows : list Comment.t :=
  [ row "c1" "alice" "/post" "" 0 100 0 ["bob"] "10.0.0.1";
    row "c2" "bob" "/post" "" 1 200 0 [] "10.0.0.2";
    row "c3" "carol" "/post" "" 0 300 1 [] "10.0.0.3";
    row "c4" "dave" "/post" "" 0 400 0 [] "10.0.0.1";
    row "r1" "bob" "/post" "c1" 0 500 0 [] "10.0.0.2" ].

Definition world_of (rows : list Comment.t) (config : Config)
    (token : string) (now : Z) : World.t :=
  World.mk rows (Some config) ∅ ∅ [] config token ∅ now 0.

Definition sample_config : Config :=
  {[ "COMMENT_PAGE_SIZE" := JNum 1; "ADMIN_PASS" := JStr "md5:root" ]}.

Definition sample_world : World.t :=
  world_of sample_rows sample_config "eve" 1000.

Definition get_event (url : string) (before : option Z) : Event.t :=
  Event.mk (Some "COMMENT_GET") None (Some url) before None None None None
    None None None.

(** ** Reading the rate limiter, the like toggle and the entry point *)

Section LimiterValues.
Context (lib : Lib).

(** The thresholds [limitFilter] takes from the configuration. *)
Definition limitPerMinute (w : World.t) : Z :=
  default 10%Z (parseInt lib (World.config w !! "LIMIT_PER_MINUTE")).

Definition limitPerMinuteAll (w : World.t) : Z :=
  default 10%Z (parseInt lib (World.config w !! "LIMIT_PER_MINUTE_ALL")).

(** The submissions stored in the trailing ten minutes, from the IP of
    the request and from every IP. *)
Definition priors_by_ip (request : Request.t) (w : World.t) : list Comment.t :=
  filter (where_since_ip (World.now w - 600000) (getIp request)) (World.tbl_comment w).

Definition priors (w : World.t) : list Comment.t :=
  filter (λ c, (World.now w - 600000 < Comment.created c)%Z) (World.tbl_comment w).

(** [limitFilter], statement log apart. *)
Definition limit_outcome (request : Request.t) (w : World.t) : Outcome unit :=
  let countByIp :=
    if (limitPerMinute w =? 0)%Z then 0%Z
    else Z.of_nat (length (priors_by_ip request w)) in
  let count :=
    if (limitPerMinuteAll w =? 0)%Z then 0%Z
    else Z.of_nat (length (priors w)) in
  if (limitPerMinute w <? countByIp)%Z then Throw (Error "发言频率过高")
  else if (limitPerMinuteAll w <? count)%Z
       then Throw (Error "评论太火爆啦 >_< 请稍后再试")
  else Return ().

Definition limit_statements (request : Request.t) (w : World.t) : list Bound :=
  (if (limitPerMinute w =? 0)%Z then []
   else [commentCountSinceByIpQuery (World.now w - 600000) (getIp request)])
  ++ (if (limitPerMinuteAll w =? 0)%Z then []
      else [commentCountSinceQuery (World.now w - 600000)]).

End LimiterValues.

(** The like list after one toggle by [uid]. *)
Definition toggled (uid : string) (likes : list string) : list string :=
  match list_find (λ item, item = uid) likes with
  | None => likes ++ [uid]
  | Some _ => filter (λ item, item ≠ uid) likes
  end.

(** The row [commentByIdQuery] finds. *)
Definition comment_by_id (id : string) (w : World.t) : option Comment.t :=
  head (select (commentByIdQuery id) (World.tbl_comment w)).

(** The world after a computation, and whether it returned. *)
Definition after {A} (m : M A) (w : World.t) : World.t := (m w).2.
Definition returns {A} (m : M A) (w : World.t) : Prop :=
  ∃ a, (m w).1 = Return a.

(** [kept Q m]: whatever [m] does, it leaves the module variable
    [accessToken] as it is, and a value it returns satisfies [Q]. *)
Definition kept {A} (Q : A → Prop) (m : M A) : Prop :=
  ∀ w, World.accessToken (m w).2 = World.accessToken w
       ∧ ∀ a, (m w).1 = Return a → Q a.

(** A response without an [accessToken] field. *)
Definition plain {D} (res : Res.t D) : Prop := Res.accessToken res = None.

(** The handlers taken from the library do not touch the module
    variable [accessToken], which is local to [index.js], and put no
    [accessToken] into their response. *)
Definition lib_plain (lib : Lib) : Prop :=
  (∀ name event request, kept plain (handler lib name event request))
  ∧ (∀ event request, kept plain (submit lib event request)).

(** The caller did not supply an access token. *)
Definition unsupplied (request : Request.t) : Prop :=
  truthy (JStr <$> Event.accessToken (default Event.empty (Request.json request)))
  = false.

Section FetchParts.
Context (lib : Lib).

(** What [fetch] does after [protect] let the request pass and the
    token was settled. *)
Definition fetch_rest (event : Event.t) (request : Request.t)
    : M (option (Res.t (Dto lib))) :=
  _ ← readConfig;
  allowCors lib request;;
  if String.eqb (Request.method request) "OPTIONS" then mret None
  else res ← dispatch lib event request; mret (Some res).

End FetchParts.

(** More sample data: one submission from 10.0.0.9 in the window, a
    per-IP threshold of 1 and no global threshold. *)
Definition limit_config : Config :=
  {[ "LIMIT_PER_MINUTE" := JNum 1; "LIMIT_PER_MINUTE_ALL" := JNum 0 ]}.

Definition limit_world : World.t :=
  world_of [row "s1" "mallory" "/post" "" 0 700000 0 [] "10.0.0.9"]
    limit_config "mallory" 1000000.

Definition request_from (ip : string) (event : Event.t) : Request.t :=
  Request.mk "POST" (Some ip) None true (Some event).

Definition admin_event (name id : string) : Event.t :=
  Event.mk (Some name) None None None (Some id) (Some {[ "isSpam" := JNum 1 ]})
    None None None None None.

Definition recent_event : Event.t :=
  Event.mk (Some "GET_RECENT_COMMENTS") None None None None None None
    (Some false) (Some 5%Z) None None.

(** * More of the worker

    The handlers below are those [fetch] takes from [handler lib] and
    the steps of the submission pipeline after the rate limiter, as far
    as they are written in [index.js].  Their statements are not among
    [Bound], so running them leaves [World.executed] as it is. *)

(** The fields of the body that [commentGetForAdmin] reads next to
    those of [Event.t], for a body whose [per] and [page] are
    integers.  [validate] is asked about the body through its
    [Event.t] part, and stands for any outcome of that call. *)
Module Listing.
Record t := mk {
  per : Z;
  page : Z;
  type : option string;
  keyword : option string
}.
End Listing.

(** The object that [parse] builds and [save] stores: a field that is
    [undefined] is [None]; the flags [master] and [isSpam] are given as
    the integer D1 stores for the boolean. *)
Module CommentDo.
Record t := mk {
  id : option string;
  _id : option string; uid : option string; nick : option string;
  mail : option string; mailMd5 : option string; link : option string;
  ua : option string; ip : option string; master : option Z;
  url : option string; href : option string; comment : option string;
  pid : option string; rid : option string; isSpam : option Z;
  created : option Z; updated : option Z; like : option (list string);
  top : option Z; avatar : option string
}.

(** [data.id = data._id = v] *)
Definition with_id (v : string) (d : t) : t :=
  mk (Some v) (Some v) (uid d) (nick d) (mail d) (mailMd5 d) (link d) (ua d)
     (ip d) (master d) (url d) (href d) (comment d) (pid d) (rid d) (isSpam d)
     (created d) (updated d) (like d) (top d) (avatar d).

(** [comment.isSpam = v] *)
Definition with_isSpam (v : Z) (d : t) : t :=
  mk (id d) (_id d) (uid d) (nick d) (mail d) (mailMd5 d) (link d) (ua d)
     (ip d) (master d) (url d) (href d) (comment d) (pid d) (rid d) (Some v)
     (created d) (updated d) (like d) (top d) (avatar d).
End CommentDo.

(** [UPDATE comment SET isSpam = ?2, updated = ?3] on one row. *)
Definition set_isSpam (isSpam updated : Z) (c : Comment.t) : Comment.t :=
  Comment.mk (Comment._id c) (Comment.uid c) (Comment.nick c) (Comment.mail c)
    (Comment.mailMd5 c) (Comment.link c) (Comment.ua c) (Comment.ip c)
    (Comment.master c) (Comment.url c) (Comment.href c) (Comment.comment c)
    (Comment.pid c) (Comment.rid c) isSpam (Comment.created c) updated
    (Comment.like c) (Comment.top c) (Comment.avatar c).

(** Modelled from the spec: the schema of table [comment] is not under
    [src/]; the identifier of a comment is unique, so the table refuses
    a row whose [_id] is taken.  A row that is accepted comes last. *)
Definition insert_comment (row : Comment.t) (tbl : list Comment.t)
    : option (list Comment.t) :=
  if decide (Comment._id row ∈ Comment._id <$> tbl) then None
  else Some (tbl ++ [row]).

(** [OFFSET n]; a negative [n] is 0 in SQLite. *)
Definition sql_offset {A} (n : Z) (l : list A) : list A := drop (Z.to_nat n) l.

(** [commentCountByUrlQuery]: [url = ?1 AND NOT isSpam AND (?2 OR rid = "")]. *)
Definition where_countByUrl (url : string) (includeReply : bool)
    (c : Comment.t) : Prop :=
  Comment.url c = url ∧ Comment.isSpam c = 0%Z
  ∧ (includeReply = true ∨ Comment.rid c = "").

Global Instance where_countByUrl_dec url includeReply c :
  Decision (where_countByUrl url includeReply c).
Proof. unfold where_countByUrl. apply _. Defined.

(** The number [commentCountByUrlQuery] yields. *)
Definition count_by_url (includeReply : bool) (w : World.t) (url : string) : Z :=
  Z.of_nat (length (filter (where_countByUrl url includeReply) (World.tbl_comment w))).

(** What [getCommentsCount] returns: [data] holds the pairs of [url]
    and [count]. *)
Module Counts.
Record t := mk {
  message : option string;
  data : option (list (string * Z))
}.
End Counts.

Section AdminRead.
Context (lib : Lib).
(** [LIKE text pattern] is SQLite's [text LIKE pattern]. *)
Context (LIKE : string → string → bool).

(** The first argument of the admin queries, from [event.type]. *)
Definition type_arg (type : option string) : Z :=
  if decide (type = Some "VISIBLE") then 1
  else if decide (type = Some "HIDDEN") then 0
  else 2.

(** The pattern [%keyword%]. *)
Definition keyword_arg (keyword : option string) : string :=
  "%" +:+ default EmptyString keyword +:+ "%".

(** The [WHERE] clause of [commentForAdminCountQuery] and
    [commentForAdminQuery]. *)
Definition where_forAdmin (spam : Z) (pattern : string) (c : Comment.t) : Prop :=
  Comment.isSpam c ≠ spam ∧
  (LIKE (Comment.nick c) pattern = true ∨ LIKE (Comment.mail c) pattern = true ∨
   LIKE (Comment.link c) pattern = true ∨ LIKE (Comment.ip c) pattern = true ∨
   LIKE (Comment.comment c) pattern = true ∨ LIKE (Comment.url c) pattern = true ∨
   LIKE (Comment.href c) pattern = true).

Global Instance where_forAdmin_dec spam pattern c :
  Decision (where_forAdmin spam pattern c).
Proof. unfold where_forAdmin. apply _. Defined.

(** [commentForAdminQuery] on the table. *)
Definition commentForAdminRows (spam : Z) (pattern : string) (limit offset : Z)
    (tbl : list Comment.t) : list Comment.t :=
  sql_limit limit
    (sql_offset offset
       (order_by_created_desc (filter (where_forAdmin spam pattern) tbl))).

Definition commentGetForAdmin (event : Event.t) (listing : Listing.t)
    : M (Res.t (Dto lib)) :=
  isAdminUser ← isAdmin lib;
  if (isAdminUser : bool) then
    check lib event ["per"; "page"];;
    w ← get;
    let spam := type_arg (Listing.type listing) in
    let pattern := keyword_arg (Listing.keyword listing) in
    let count :=
      Z.of_nat (length (filter (where_forAdmin spam pattern) (World.tbl_comment w))) in
    let data :=
      commentForAdminRows spam pattern (Listing.per listing)
        (Listing.per listing * (Listing.page listing - 1)) (World.tbl_comment w) in
    mret (Res.mk (Some (RES_CODE.SUCCESS (RES lib))) None (Some (Rows data)) None
            (Some count) None None)
  else mret (need_login lib).

End AdminRead.

Section Store.
Context (lib : Lib).

Definition commentExportForAdmin : M (Res.t (Dto lib)) :=
  isAdminUser ← isAdmin lib;
  if (isAdminUser : bool) then
    w ← get;
    mret (Res.mk (Some (RES_CODE.SUCCESS (RES lib))) None
            (Some (Rows (World.tbl_comment w))) None None None None)
  else mret (need_login lib).

(** ** Counting comments *)

Definition getCommentsCount (event : Event.t) : M Counts.t :=
  try_catch
    (check lib event ["urls"];;
     match Event.urls event with
     | None =>
         throw (TypeError "Cannot read properties of undefined (reading 'map')")
     | Some urls =>
         data ← for_each (λ url,
           includeReply ← arg (Event.includeReply event);
           w ← get;
           mret (url, Z.of_nat (length (filter (where_countByUrl url includeReply)
                                          (World.tbl_comment w)))))
           urls;
         mret (Counts.mk None (Some data))
     end)
    (λ e, mret (Counts.mk (Some (message e)) None)).

(** ** Storing a submission *)

(** The row [saveCommentStmt] is bound to. *)
Definition row_of (id url href comment : string) (created updated : Z)
    (data : CommentDo.t) : Comment.t :=
  Comment.mk id
    (default EmptyString (CommentDo.uid data))
    (default EmptyString (CommentDo.nick data))
    (default EmptyString (CommentDo.mail data))
    (default EmptyString (CommentDo.mailMd5 data))
    (default EmptyString (CommentDo.link data))
    (default EmptyString (CommentDo.ua data))
    (default EmptyString (CommentDo.ip data))
    (default 0%Z (CommentDo.master data))
    url href comment
    (default EmptyString (CommentDo.pid data))
    (default EmptyString (CommentDo.rid data))
    (default 0%Z (CommentDo.isSpam data))
    created updated
    (default [] (CommentDo.like data))
    (default 0%Z (CommentDo.top data))
    (default EmptyString (CommentDo.avatar data)).

Definition save (data : CommentDo.t) : M CommentDo.t :=
  w ← get;
  let id := remove_dashes (uuidv4 lib (World.uuids w)) in
  modify (World.with_uuids (S (World.uuids w)));;
  let data := CommentDo.with_id id data in
  url ← arg (CommentDo.url data);
  href ← arg (CommentDo.href data);
  comment ← arg (CommentDo.comment data);
  created ← arg (CommentDo.created data);
  updated ← arg (CommentDo.updated data);
  match insert_comment (row_of id url href comment created updated data)
          (World.tbl_comment w) with
  | Some tbl => modify (World.with_tbl_comment tbl);; mret data
  | None => throw (Error "D1_ERROR: UNIQUE constraint failed: comment._id")
  end.

(** [saveSpamCheckResult]; the value is the comment object after
    [comment.isSpam = isSpam]. *)
Definition saveSpamCheckResult (comment : CommentDo.t) (isSpam : bool)
    : M CommentDo.t :=
  let flag := if isSpam then 1%Z else 0%Z in
  id ← arg (CommentDo._id comment);
  modify (λ w, World.with_tbl_comment
    (update_where_id id (set_isSpam flag (World.now w)) (World.tbl_comment w)) w);;
  mret (CommentDo.with_isSpam flag comment).

End Store.

(** ** The page-view counter *)

(** Modelled from the spec: the schema of table [counter] is not under
    [src/]; the persisted layout has one counter table keyed by [url],
    which is also the conflict target of [incCounterStmt].  A row has
    the columns that statement fills, in its order: [url] (the key),
    [title], [time], [created], [updated]. *)
Module Counter.
Record t := mk { title : string; time : Z; created : Z; updated : Z }.
End Counter.

(** What [counterGet] returns. *)
Module Hits.
Record t := mk { message : option string; time : option Z }.
End Hits.

(** [incCounterStmt]: insert with [time = 1], or on a conflict on [url]
    add one to [time] and set [title] and [updated]. *)
Definition incCounter (url title : string) (now : Z)
    (counter : gmap string Counter.t) : gmap string Counter.t :=
  match counter !! url with
  | None => <[url := Counter.mk title 1 now now]> counter
  | Some c =>
      <[url := Counter.mk title (Counter.time c + 1) (Counter.created c) now]> counter
  end.

Section CounterGet.
Context (lib : Lib).

(** [counterGet] on table [counter] at time [now]: the response and
    the table after the call. *)
Definition counterGet (event : Event.t) (title : option string) (now : Z)
    (counter : gmap string Counter.t) : Hits.t * gmap string Counter.t :=
  match validate lib event ["url"] with
  | Some m => (Hits.mk (Some m) None, counter)
  | None =>
      match Event.url event, title with
      | Some url, Some title =>
          let counter := incCounter url title now counter in
          (Hits.mk None (Counter.time <$> counter !! url), counter)
      | _, _ =>
          (Hits.mk
             (Some "D1_TYPE_ERROR: Type 'undefined' not supported for value 'undefined'")
             None, counter)
      end
  end.

(** The table after one [counterGet] for each title of [titles], all
    with the body [event], at the times [now], [now + 1], ... *)
Fixpoint visits (event : Event.t) (titles : list (option string)) (now : Z)
    (counter : gmap string Counter.t) : gmap string Counter.t :=
  match titles with
  | [] => counter
  | title :: titles =>
      visits event titles (now + 1) (counterGet event title now counter).2
  end.

End CounterGet.

(** ** Requests in a row *)


Section Guard.
Context (lib : Lib).


End Guard.

(** ** More sample data *)

(** The sample table as the admin sees it, whose access token is the
    password. *)
Definition admin_world : World.t :=
  world_of sample_rows sample_config "root" 1000.

(** A configuration with a negative page size. *)
Definition negative_world : World.t :=
  world_of sample_rows {[ "COMMENT_PAGE_SIZE" := JNum (-1) ]} "eve" 1000.

(** A stand-in for [LIKE] that knows the pattern [%%] only, which
    matches every text. *)
Definition sample_like (text pattern : string) : bool := String.eqb pattern "%%".

Definition sample_listing : Listing.t := Listing.mk 2 1 (Some "VISIBLE") None.

(** A submission of [eve] from 10.0.0.1, as [parse] hands it to
    [save]. *)
Definition sample_do : CommentDo.t :=
  CommentDo.mk None (Some "0000") (Some "eve") (Some "Eve") None None None
    (Some "ua") (Some "10.0.0.1") (Some 0%Z) (Some "/post") (Some "/post")
    (Some "hello") None None (Some 0%Z) (Some 900%Z) (Some 900%Z) None None None.

(** The same submission without [href]. *)
Definition bare_do : CommentDo.t :=
  CommentDo.mk None (Some "0000") (Some "eve") (Some "Eve") None None None
    (Some "ua") (Some "10.0.0.1") (Some 0%Z) (Some "/post") None
    (Some "hello") None None (Some 0%Z) (Some 900%Z) (Some 900%Z) None None None.

(** The comment object of the stored row [c4]. *)
Definition stored_do : CommentDo.t :=
  CommentDo.mk (Some "c4") (Some "c4") (Some "dave") None None None None None
    None None (Some "/post") (Some "/post") (Some "text") None None None
    (Some 400%Z) (Some 400%Z) None None None.

Definition counts_event (urls : list string) (includeReply : option bool) : Event.t :=
  Event.mk (Some "GET_COMMENTS_COUNT") None None None None None (Some urls)
    includeReply None None None.

Definition counter_event (url : string) : Event.t :=
  Event.mk (Some "COUNTER_GET") None (Some url) None None None None None None
    None None.

Definition password_event (password : string) : Event.t :=
  Event.mk (Some "SET_PASSWORD") None None None None None None None None None
    (Some password).

(** A world in which 10.0.0.7 has used up its requests. *)
Definition busy_world : World.t :=
  World.with_requestTimes {[ Some "10.0.0.7" := 250%Z ]} sample_world.

(** * Properties *)

(** Unfolds the monad and the D1 calls so that a handler applied to a
    world computes. *)
Ltac mrun :=
  repeat (unfold mbind, M_bind, mret, M_ret, fmap, M_fmap, get, modify, throw,
    try_catch, arg, log, rows_of, all, first_count, first, first_value, check,
    getUid, isAdmin, World.with_executed, World.with_replyQueryCache,
    World.with_tbl_comment, World.with_tbl_config, World.with_config,
    World.with_accessToken, World.with_requestTimes, World.with_uuids,
    World.with_commentSetStmtCache; simpl).

(** ** The JavaScript helpers on small inputs *)

Example splice1_middle : splice1 [1; 2; 3] 1 = [1; 3].
Proof. reflexivity. Qed.

Example splice1_from_end : splice1 [1; 2; 3] (-1) = [1; 2].
Proof. reflexivity. Qed.

Example splice1_past_end : splice1 [1; 2; 3] 5 = [1; 2; 3].
Proof. reflexivity. Qed.

Example num_or_zero : num_or (Some 0%Z) 8 = 8%Z ∧ num_or None 8 = 8%Z.
Proof. by split. Qed.

Example remove_dashes_uuid : remove_dashes "4f1a-4f1a-c0de" = "4f1a4f1ac0de".
Proof. reflexivity. Qed.

Example split_comma_list :
  split_comma "https://a.org/,https://b.org" = ["https://a.org/"; "https://b.org"].
Proof. reflexivity. Qed.

Example strip_slash_once :
  strip_slash "https://a.org/" = "https://a.org" ∧ strip_slash "https://b.org" = "https://b.org".
Proof. by split. Qed.

Example truthy_values :
  truthy (Some (JStr "false")) = true ∧ truthy (Some (JNum 0)) = false
  ∧ truthy None = false.
Proof. by repeat split. Qed.

Example code_units_ascii : code_units "url" = [117; 114; 108]%N.
Proof. reflexivity. Qed.

Example code_units_pair : code_units "😀" = [55357; 56832]%N.
Proof. reflexivity. Qed.

(** By code units a character beyond U+FFFF comes before U+FF5E,
    by bytes after it. *)
Example js_le_code_units : js_le "😀" "～" ∧ ¬ js_le "～" "😀".
Proof. split; [reflexivity|discriminate]. Qed.

(** ** Lists and the [ORDER BY] *)

Lemma delete_take_S {A} (l : list A) (n : nat) :
  delete n (take (S n) l) = take n l.
Proof.
  revert l. induction n as [|n IH]; intros [|x l]; simpl; try done.
  f_equal. apply IH.
Qed.

Global Instance newer_first_total : Total newer_first.
Proof. intros a b. unfold newer_first. lia. Qed.

Global Instance newer_first_trans : Transitive newer_first.
Proof. intros a b c. unfold newer_first. lia. Qed.

Lemma order_by_created_desc_Sorted l : Sorted newer_first (order_by_created_desc l).
Proof. apply (Sorted_merge_sort newer_first). Qed.

Lemma order_by_created_desc_perm l : order_by_created_desc l ≡ₚ l.
Proof. apply (merge_sort_Permutation newer_first). Qed.

Lemma order_by_created_desc_length l : length (order_by_created_desc l) = length l.
Proof. by rewrite order_by_created_desc_perm. Qed.

Lemma order_by_created_desc_elem c l : c ∈ order_by_created_desc l ↔ c ∈ l.
Proof. by rewrite order_by_created_desc_perm. Qed.

Lemma sql_limit_elem {A} (n : Z) (l : list A) x : x ∈ sql_limit n l → x ∈ l.
Proof.
  unfold sql_limit. destruct (n <? 0)%Z; [done|]. apply subseteq_take.
Qed.

Lemma sql_limit_length {A} (n : Z) (l : list A) :
  (0 ≤ n)%Z → length (sql_limit n l) ≤ Z.to_nat n.
Proof.
  intros Hn. unfold sql_limit.
  destruct (n <? 0)%Z eqn:E; [lia|]. rewrite length_take. lia.
Qed.


Lemma splice1_elem {A} (l : list A) (start : Z) x : x ∈ splice1 l start → x ∈ l.
Proof.
  unfold splice1. apply list_elem_of_delete_inv.
Qed.

Lemma filter_ext_elem {A} (P Q : A → Prop) `{∀ x, Decision (P x)}
    `{∀ x, Decision (Q x)} (l : list A) :
  (∀ x, x ∈ l → P x ↔ Q x) → filter P l = filter Q l.
Proof.
  induction l as [|x l IH]; intros HPQ; [done|].
  rewrite !filter_cons.
  assert (P x ↔ Q x) as Hx by (apply HPQ; left).
  rewrite IH by (intros y Hy; apply HPQ; by right).
  destruct (decide (P x)), (decide (Q x)); tauto.
Qed.

Lemma filter_none {A} (P : A → Prop) `{∀ x, Decision (P x)} (l : list A) :
  (∀ x, ¬ P x) → filter P l = [].
Proof.
  intros HP. induction l as [|x l IH]; [done|].
  rewrite filter_cons, decide_False by apply HP. done.
Qed.

Lemma StronglySorted_lookup {A} (R : relation A) (l : list A) i j a b :
  StronglySorted R l → i < j → l !! i = Some a → l !! j = Some b → R a b.
Proof.
  intros Hs. revert i j. induction Hs as [|x l Hs IH Hall]; intros i j Hij Hi Hj.
  - by rewrite lookup_nil in Hi.
  - destruct j as [|j]; [lia|]. simpl in Hj.
    destruct i as [|i].
    + simpl in Hi. injection Hi as ->.
      rewrite Forall_forall in Hall. apply Hall. by eapply list_elem_of_lookup_2.
    + simpl in Hi. apply (IH i j); [lia|done..].
Qed.

Section CommentGet.
Context (lib : Lib).

Lemma parseLike_id (l : list Comment.t) : parseLike <$> l = l.
Proof. induction l; simpl; [done|]. by f_equal. Qed.

(** A call with a [url] that passes validation returns [response] and
    leaves the world [world_after]. *)
Lemma commentGet_run w event u :
  validate lib event ["url"] = None →
  Event.url event = Some u →
  commentGet lib event w
  = (Return (response lib u event w), world_after lib u event w).
Proof.
  intros Hv Hu. unfold commentGet. mrun. rewrite Hv, Hu. mrun.
  unfold response, world_after, statements, reply_cache_after, replies,
    reply_query, pinned, page, fetched, pinned_query, main_query,
    count_query, page_limit, is_admin, pinned_fetch, cursor.
  set (adm := bool_decide _).
  set (L := num_or _ _).
  destruct w as [tbl cfgrow rc sc ex cfg tok rt nw uu]; simpl in *.
  destruct (negb (truthy (cfg !! "TOP_DISABLED"))
            && negb (truthy_num (Event.before event)));
    mrun; unfold getReplyQuery; mrun;
    match goal with
    | |- context [ @lookup _ _ _ _ ?k ?m ] =>
        destruct (@lookup _ _ _ _ k m) eqn:Hc
    end;
    mrun; by rewrite parseLike_id, <- ?app_assoc.
Qed.

Lemma world_after_executed u event w :
  World.executed (world_after lib u event w)
  = World.executed w ++ statements lib u event w.
Proof. done. Qed.

Lemma fetched_take u event w :
  (0 < page_limit lib w)%Z →
  fetched lib u event w = take (S (Z.to_nat (page_limit lib w))) (matching lib u event w).
Proof.
  intros HL. unfold fetched, main_query, matching. simpl. unfold sql_limit.
  destruct (page_limit lib w + 1 <? 0)%Z eqn:E; [lia|].
  by replace (Z.to_nat (page_limit lib w + 1)) with (S (Z.to_nat (page_limit lib w))) by lia.
Qed.

Lemma more_spec u event w :
  (0 < page_limit lib w)%Z →
  bool_decide (page_limit lib w < Z.of_nat (length (fetched lib u event w)))%Z
  = bool_decide (Z.to_nat (page_limit lib w) < length (matching lib u event w)).
Proof.
  intros HL. rewrite fetched_take by done. rewrite length_take.
  apply bool_decide_ext. lia.
Qed.

Lemma page_take u event w :
  (0 < page_limit lib w)%Z →
  page lib u event w = take (Z.to_nat (page_limit lib w)) (matching lib u event w).
Proof.
  intros HL. unfold page. rewrite more_spec by done.
  rewrite fetched_take by done.
  case_bool_decide as Hlt.
  - unfold splice1. rewrite length_take.
    destruct (page_limit lib w <? 0)%Z eqn:E; [lia|].
    replace (Z.to_nat (Z.min _ _)) with (Z.to_nat (page_limit lib w)) by lia.
    apply delete_take_S.
  - rewrite !take_ge; [done|lia..].
Qed.

(** ** The main stream and visibility *)


Lemma page_elem u event w c : c ∈ page lib u event w → c ∈ matching lib u event w.
Proof.
  unfold page. intros H.
  assert (c ∈ fetched lib u event w) as Hf.
  { case_bool_decide; [by apply splice1_elem in H|done]. }
  unfold fetched, main_query in Hf. simpl in Hf. by apply sql_limit_elem in Hf.
Qed.

Lemma matching_elem u event w c :
  c ∈ matching lib u event w ↔
  where_comment u (spam_arg (is_admin lib w)) (World.accessToken w) (cursor event) 0 c
  ∧ c ∈ World.tbl_comment w.
Proof.
  unfold matching. by rewrite order_by_created_desc_elem, list_elem_of_filter.
Qed.

Lemma pinned_elem u event w c :
  c ∈ pinned lib u event w →
  where_comment u (spam_arg (is_admin lib w)) (World.accessToken w)
    MAX_TIMESTAMP_MILLIS 1 c
  ∧ c ∈ World.tbl_comment w.
Proof.
  unfold pinned. destruct (pinned_fetch event w); [|by intros ?%elem_of_nil].
  unfold pinned_query. simpl. intros H%sql_limit_elem.
  by rewrite order_by_created_desc_elem, list_elem_of_filter in H.
Qed.

Lemma replies_elem u event w c :
  c ∈ replies lib u event w ↔
  where_reply u (spam_arg (is_admin lib w)) (World.accessToken w)
    (Comment._id <$> (pinned lib u event w ++ page lib u event w)) c
  ∧ c ∈ World.tbl_comment w.
Proof. unfold replies, reply_query. simpl. by rewrite list_elem_of_filter. Qed.

Lemma shown_visible_to admin uid c :
  spam_flag_ok c → shown (spam_arg admin) uid c ↔ visible_to admin uid c.
Proof.
  unfold spam_flag_ok, shown, visible_to, spam_arg.
  destruct admin; intros [H|H]; rewrite H; split; intros; try tauto; try (left; lia);
    try (destruct H0 as [?|[?|?]]; try discriminate; tauto).
Qed.

Lemma in_stream_where u w event c :
  spam_flag_ok c →
  in_stream u (is_admin lib w) (World.accessToken w) (cursor event) c
  ↔ where_comment u (spam_arg (is_admin lib w)) (World.accessToken w)
      (cursor event) 0 c.
Proof.
  intros Hok. unfold in_stream, where_comment.
  rewrite (shown_visible_to _ _ _ Hok). tauto.
Qed.

(** C1: a COMMENT_GET request with a url, an optional cursor [before]
    (the far-future sentinel when absent) and a positive page size
    [L], on a table whose spam flags are booleans, runs the non-pinned
    query with limit [L + 1].  The rows it yields are rows of the
    table, each a visible, non-pinned, top-level comment of the page
    with [created < before]; they come with [created] descending; a
    row of that kind that is left out is no newer than any row that
    was fetched; and they are [min (L + 1) N] rows for [N] rows of
    that kind.  The response holds the first [L] of the fetched rows,
    that is [min N L] rows, and [more] tells whether [N] exceeds
    [L]. *)
Theorem commentGet_stream_page w event u :
  validate lib event ["url"] = None →
  Event.url event = Some u →
  (0 < page_limit lib w)%Z →
  Forall spam_flag_ok (World.tbl_comment w) →
  let L := Z.to_nat (page_limit lib w) in
  let admin := is_admin lib w in
  let uid := World.accessToken w in
  let before := default MAX_TIMESTAMP_MILLIS (Event.before event) in
  let N := length (filter (in_stream u admin uid before) (World.tbl_comment w)) in
  ∃ res w' rows,
    commentGet lib event w = (Return res, w') ∧
    commentQuery u (spam_arg admin) uid before 0 (page_limit lib w + 1)
      ∈ World.executed w' ∧
    select (commentQuery u (spam_arg admin) uid before 0 (page_limit lib w + 1))
      (World.tbl_comment w) = rows ∧
    rows ⊆+ World.tbl_comment w ∧
    (∀ c, c ∈ rows → in_stream u admin uid before c) ∧
    (∀ i j a b, i < j → rows !! i = Some a → rows !! j = Some b →
                (Comment.created b ≤ Comment.created a)%Z) ∧
    (∀ c a, c ∈ World.tbl_comment w → in_stream u admin uid before c →
            c ∉ rows → a ∈ rows → (Comment.created c ≤ Comment.created a)%Z) ∧
    length rows = (L + 1) `min` N ∧
    Res.data res
    = Some (Parsed (parseComment lib
        (pinned lib u event w ++ take L rows ++ replies lib u event w)
        uid (World.config w))) ∧
    length (take L rows) = L `min` N ∧
    Res.more res = Some (bool_decide (L < N)).
Proof.
  intros Hv Hu HL Hok L admin uid before N.
  rewrite Forall_forall in Hok.
  set (all := matching lib u event w).
  assert (StronglySorted newer_first all) as Hsorted.
  { apply (Sorted_StronglySorted _), order_by_created_desc_Sorted. }
  assert (fetched lib u event w = take (S L) all) as Hf by by apply fetched_take.
  assert (∀ c, c ∈ all ↔ c ∈ World.tbl_comment w ∧ in_stream u admin uid before c)
    as Hall.
  { intros c. unfold all. rewrite matching_elem. split.
    - intros [Hc Hin]. split; [done|]. by apply in_stream_where; [apply Hok|].
    - intros [Hin Hc]. split; [|done]. by apply in_stream_where; [apply Hok|]. }
  assert (length all = N) as HN.
  { unfold all, matching, N. rewrite order_by_created_desc_length. f_equal.
    apply filter_ext_elem. intros c Hc. symmetry.
    apply in_stream_where. by apply Hok. }
  exists (response lib u event w), (world_after lib u event w), (take (S L) all).
  split; [by apply commentGet_run|].
  split.
  { rewrite world_after_executed. unfold statements.
    apply elem_of_app. right. apply elem_of_cons. right. apply elem_of_cons. by left. }
  split; [exact Hf|].
  split.
  { etrans; [apply sublist_submseteq, sublist_take|].
    unfold all, matching. rewrite order_by_created_desc_perm.
    apply sublist_submseteq, sublist_filter. }
  split.
  { intros c Hc%subseteq_take. by apply Hall in Hc as [_ Hc]. }
  split.
  { intros i j a b Hij Ha Hb.
    assert (StronglySorted newer_first (take (S L) all)) as Hs.
    { rewrite <- (take_drop (S L) all) in Hsorted.
      by apply StronglySorted_app_1_l in Hsorted. }
    apply (StronglySorted_lookup _ _ i j a b Hs Hij Ha Hb). }
  split.
  { intros c a Hc Hin Hnot Ha.
    assert (c ∈ all) as Hcall by by apply Hall.
    rewrite <- (take_drop (S L) all) in Hcall, Hsorted.
    apply elem_of_app in Hcall as [Hcall|Hcall]; [done|].
    apply (StronglySorted_app_1_elem_of _ _ _ _ _ Hsorted Ha Hcall). }
  split; [rewrite length_take, HN; lia|].
  split.
  { unfold response. simpl. rewrite page_take by done. fold all L.
    by rewrite take_take, Nat.min_l by lia. }
  split; [rewrite take_take, length_take, HN; lia|].
  unfold response. simpl. rewrite more_spec by done. fold all L.
  by rewrite HN.
Qed.


(** ** Pinned comments *)

Lemma fetched_without_pinned u event w :
  fetched lib u event (without_pinned w) = fetched lib u event w.
Proof.
  unfold fetched, main_query, without_pinned. simpl. f_equal. f_equal.
  rewrite list_filter_filter. apply list_filter_iff.
  intros c. unfold where_comment. split; [tauto|].
  intros (? & ? & ? & Htop & ?). rewrite Htop. repeat split; done.
Qed.

Lemma page_without_pinned u event w :
  page lib u event (without_pinned w) = page lib u event w.
Proof. unfold page. by rewrite fetched_without_pinned. Qed.

Lemma page_not_pinned u event w :
  Forall (λ c, Comment.top c = 0%Z) (page lib u event w).
Proof.
  apply Forall_forall. intros c Hc%page_elem%matching_elem.
  by destruct Hc as [(_ & _ & _ & ? & _) _].
Qed.

(** C3, amended: on a request without a cursor, and unless the
    configuration sets TOP_DISABLED, the pinned top-level comments are
    fetched by a query of their own with limit 500 and put before the
    page of non-pinned comments; with a non-zero cursor, or with
    TOP_DISABLED set, there is no pinned query.  In every case the
    [more] flag and the page of non-pinned comments are those of the
    table without its pinned rows, and [count] is the number of visible
    top-level comments of the url, pinned or not. *)
Theorem commentGet_pinned w event u :
  validate lib event ["url"] = None →
  Event.url event = Some u →
  let spam := spam_arg (is_admin lib w) in
  let uid := World.accessToken w in
  let tbl := World.tbl_comment w in
  let top := select (commentQuery u spam uid MAX_TIMESTAMP_MILLIS 1 MAX_QUERY_LIMIT) tbl in
  let main := page lib u event w in
  let reply := replies lib u event w in
  ∃ res w' res0 w0',
    commentGet lib event w = (Return res, w') ∧
    commentGet lib event (without_pinned w) = (Return res0, w0') ∧
    Res.more res = Res.more res0 ∧
    main = page lib u event (without_pinned w) ∧
    Forall (λ c, Comment.top c = 0%Z) main ∧
    Res.count res
    = Some (Z.of_nat (length (filter (where_commentCount u spam uid) tbl))) ∧
    (Event.before event = None →
     truthy (World.config w !! "TOP_DISABLED") = false →
       World.executed w'
       = World.executed w
         ++ [count_query lib u w; main_query lib u event w;
             commentQuery u spam uid MAX_TIMESTAMP_MILLIS 1 MAX_QUERY_LIMIT;
             reply_query lib u event w] ∧
       Res.data res
       = Some (Parsed (parseComment lib (top ++ main ++ reply) uid (World.config w))) ∧
       length top ≤ 500 ∧
       Forall (λ c, c ∈ tbl ∧ Comment.top c = 1%Z ∧ Comment.rid c = "") top) ∧
    ((∃ b, Event.before event = Some b ∧ b ≠ 0%Z)
     ∨ truthy (World.config w !! "TOP_DISABLED") = true →
       World.executed w'
       = World.executed w
         ++ [count_query lib u w; main_query lib u event w;
             reply_query lib u event w] ∧
       Res.data res
       = Some (Parsed (parseComment lib (main ++ reply) uid (World.config w)))).
Proof.
  intros Hv Hu spam uid tbl top main reply.
  exists (response lib u event w), (world_after lib u event w),
    (response lib u event (without_pinned w)),
    (world_after lib u event (without_pinned w)).
  split; [by apply commentGet_run|].
  split; [by apply commentGet_run|].
  split. { unfold response. simpl. by rewrite fetched_without_pinned. }
  split. { unfold main. by rewrite page_without_pinned. }
  split; [apply page_not_pinned|].
  split; [done|].
  split.
  - intros Hb Htop.
    assert (pinned_fetch event w = true) as Hp.
    { unfold pinned_fetch. by rewrite Htop, Hb. }
    assert (pinned lib u event w = top) as Hpin.
    { unfold pinned. by rewrite Hp. }
    split. { rewrite world_after_executed. unfold statements. by rewrite Hp. }
    split. { unfold response. simpl. by rewrite Hpin. }
    split. { apply (sql_limit_length MAX_QUERY_LIMIT). unfold MAX_QUERY_LIMIT. lia. }
    apply Forall_forall. intros c Hc. rewrite <- Hpin in Hc.
    apply pinned_elem in Hc as [(_ & _ & _ & ? & ?) ?]. done.
  - intros Hoff.
    assert (pinned_fetch event w = false) as Hp.
    { unfold pinned_fetch, truthy_num.
      destruct Hoff as [(b & Hb & Hb0) | Htop]; [|by rewrite Htop].
      rewrite Hb. simpl.
      destruct (b =? 0)%Z eqn:E; [lia|]. simpl. apply andb_false_r. }
    split. { rewrite world_after_executed. unfold statements. by rewrite Hp. }
    unfold response, pinned. simpl. by rewrite Hp.
Qed.

(** ** The reply query *)

(** C5, amended: every COMMENT_GET request that passes validation runs
    the reply membership query, as its last statement, with exactly
    the ids of the resolved page as parameters; on an empty page this
    is the query with zero id parameters, which finds no reply, and the
    response is built from the empty list. *)
Theorem commentGet_reply_query w event u :
  validate lib event ["url"] = None →
  Event.url event = Some u →
  let spam := spam_arg (is_admin lib w) in
  let uid := World.accessToken w in
  let main := pinned lib u event w ++ page lib u event w in
  ∃ res w',
    commentGet lib event w = (Return res, w') ∧
    last (World.executed w') = Some (replyQuery u spam uid (Comment._id <$> main)) ∧
    is_Some (World.replyQueryCache w' !! length main) ∧
    (main = [] →
       last (World.executed w') = Some (replyQuery u spam uid []) ∧
       is_Some (World.replyQueryCache w' !! 0) ∧
       Res.data res
       = Some (Parsed (parseComment lib [] uid (World.config w)))).
Proof.
  intros Hv Hu spam uid main.
  exists (response lib u event w), (world_after lib u event w).
  assert (last (World.executed (world_after lib u event w))
          = Some (replyQuery u spam uid (Comment._id <$> main))) as Hlast.
  { rewrite world_after_executed. unfold statements.
    rewrite !app_assoc. apply last_snoc. }
  assert (is_Some (World.replyQueryCache (world_after lib u event w) !! length main))
    as Hcache.
  { unfold world_after, reply_cache_after. simpl. fold main.
    destruct (World.replyQueryCache w !! length main) eqn:E.
    - rewrite E. by eexists.
    - rewrite lookup_insert_eq. by eexists. }
  split; [by apply commentGet_run|].
  split; [done|]. split; [done|].
  intros Hmain. rewrite Hmain in *. split; [done|]. split; [done|].
  unfold response, replies, reply_query. simpl.
  apply app_eq_nil in Hmain as [Hp Hg]. rewrite Hp, Hg. simpl.
  do 3 f_equal. apply filter_none. intros c (_ & _ & Hin). by apply elem_of_nil in Hin.
Qed.

End CommentGet.

(** ** The theorems on sample requests *)

Lemma commentGet_stream_page_witness :
  ∃ res w',
    commentGet sample_lib (get_event "/post" None) sample_world = (Return res, w') ∧
    Res.data res
    = Some (Parsed [ row "c3" "carol" "/post" "" 0 300 1 [] "10.0.0.3";
                     row "c4" "dave" "/post" "" 0 400 0 [] "10.0.0.1" ]) ∧
    Res.more res = Some true.
Proof.
  assert (Forall spam_flag_ok sample_rows) as Hflags.
  { repeat constructor; by (left + right). }
  destruct (commentGet_stream_page sample_lib sample_world (get_event "/post" None)
              "/post" eq_refl eq_refl eq_refl Hflags)
    as (res & w' & rows & Hrun & _ & Hrows & _ & _ & _ & _ & _ & Hdata & _ & Hmore).
  exists res, w'. split; [exact Hrun|]. split; [|exact Hmore].
  rewrite Hdata, <- Hrows. reflexivity.
Defined.


(** C3 as the specification states it fails when the configuration
    sets TOP_DISABLED: the request has no cursor and the page has a
    visible pinned comment, yet no pinned query runs and the comment is
    not in the response, although [count] counts it. *)
Lemma commentGet_pinned_disabled :
  let w := world_of sample_rows (<["TOP_DISABLED" := JStr "true"]> sample_config)
             "eve" 1000 in
  let event := get_event "/post" None in
  let c3 := row "c3" "carol" "/post" "" 0 300 1 [] "10.0.0.3" in
  Event.before event = None ∧
  select (pinned_query sample_lib "/post" w) (World.tbl_comment w) = [c3] ∧
  ∃ res w' rows,
    commentGet sample_lib event w = (Return res, w') ∧
    Res.data res = Some (Parsed rows) ∧
    (c3 ∉ rows) ∧
    (pinned_query sample_lib "/post" w ∉ World.executed w') ∧
    Res.count res = Some 3%Z.
Proof.
  split; [reflexivity|]. split; [by vm_compute|].
  eexists _, _, _. split; [by vm_compute|].
  split; [reflexivity|]. split; [|split; [|reflexivity]].
  - intros H. repeat (apply elem_of_cons in H as [H|H]; [discriminate H|]).
    by apply elem_of_nil in H.
  - intros H. repeat (apply elem_of_cons in H as [H|H]; [discriminate H|]).
    by apply elem_of_nil in H.
Qed.

Lemma commentGet_pinned_witness :
  ∃ res w',
    commentGet sample_lib (get_event "/post" None) sample_world = (Return res, w') ∧
    Res.count res = Some 3%Z.
Proof.
  destruct (commentGet_pinned sample_lib sample_world (get_event "/post" None)
              "/post" eq_refl eq_refl)
    as (res & w' & res0 & w0' & Hrun & _ & _ & _ & _ & Hcount & _).
  exists res, w'. split; [exact Hrun | exact Hcount].
Defined.

(** C5 as the specification states it fails on a page without
    comments: the handler does not stop early, it prepares and runs the
    reply query with zero id parameters. *)
Lemma commentGet_empty_page_query :
  ∃ res w',
    commentGet sample_lib (get_event "/none" None) sample_world = (Return res, w') ∧
    Res.data res = Some (Parsed []) ∧
    replyQuery "/none" 1 "eve" [] ∈ World.executed w' ∧
    World.replyQueryCache w' !! 0
    = Some "SELECT * FROM comment
WHERE
  url = ?1 AND
  (isSpam != ?2 OR uid = ?3) AND
  rid IN ()".
Proof.
  eexists _, _. split; [by vm_compute|].
  split; [reflexivity|]. split; [|by vm_compute].
  simpl. do 3 (apply elem_of_cons; right). apply elem_of_cons. by left.
Qed.

Lemma commentGet_reply_query_witness :
  ∃ res w',
    commentGet sample_lib (get_event "/post" None) sample_world = (Return res, w') ∧
    last (World.executed w') = Some (replyQuery "/post" 1 "eve" ["c3"; "c4"]).
Proof.
  destruct (commentGet_reply_query sample_lib sample_world (get_event "/post" None)
              "/post" eq_refl eq_refl)
    as (res & w' & Hrun & Hlast & _).
  exists res, w'. split; [exact Hrun | exact Hlast].
Defined.

(** ** The submission rate limiter *)

Section RateLimiter.
Context (lib : Lib).

Lemma limitFilter_run request w :
  limitFilter lib request w
  = (limit_outcome lib request w,
     World.with_executed (World.executed w ++ limit_statements lib request w) w).
Proof.
  unfold limitFilter, limit_outcome, limit_statements, priors_by_ip, priors,
    limitPerMinute, limitPerMinuteAll.
  destruct w as [tbl cfgrow rc sc ex cfg tok rt nw uu]. mrun.
  destruct (default 10%Z (parseInt lib (cfg !! "LIMIT_PER_MINUTE")) =? 0)%Z;
    destruct (default 10%Z (parseInt lib (cfg !! "LIMIT_PER_MINUTE_ALL")) =? 0)%Z;
    mrun;
    repeat match goal with |- context [ (?a <? ?b)%Z ] => destruct (a <? b)%Z end;
    mrun; by rewrite <- ?app_assoc, ?app_nil_r.
Qed.

(** A threshold of 0 skips the count query of its check, and the check
    then rejects nothing. *)
Lemma limitFilter_disabled request w :
  limitPerMinute lib w = 0%Z →
  (∀ since ip, commentCountSinceByIpQuery since ip ∉ limit_statements lib request w) ∧
  limit_outcome lib request w ≠ Throw (Error "发言频率过高").
Proof.
  intros HT. unfold limit_statements, limit_outcome. rewrite HT. simpl. split.
  - intros since ip Hin.
    destruct (limitPerMinuteAll lib w =? 0)%Z;
      repeat (apply elem_of_cons in Hin as [Hin|Hin]; [discriminate Hin|]);
      by apply elem_of_nil in Hin.
  - by destruct (limitPerMinuteAll lib w <? _)%Z.
Qed.

(** With no stored submission of the IP in the window, the per-IP
    check lets the submission pass. *)
Lemma limitFilter_aged_out request w :
  (0 < limitPerMinute lib w)%Z →
  priors_by_ip request w = [] →
  limit_outcome lib request w ≠ Throw (Error "发言频率过高").
Proof.
  intros HT Hp. unfold limit_outcome. rewrite Hp. simpl.
  assert ((limitPerMinute lib w <? 0)%Z = false) as E by lia.
  destruct (limitPerMinute lib w =? 0)%Z; change (Z.of_nat 0) with 0%Z; rewrite E;
    by destruct (limitPerMinuteAll lib w <? _)%Z.
Qed.

(** C4, as the code behaves: with a per-IP threshold [T > 0] (and the
    global check passing), a submission from an IP with up to [T]
    prior submissions in the window is accepted, so the [(T+1)]-th is
    accepted too; only with more than [T] priors is it rejected. *)
Theorem limitFilter_off_by_one request w :
  (0 < limitPerMinute lib w)%Z →
  limitPerMinuteAll lib w = 0%Z
  ∨ (Z.of_nat (length (priors w)) ≤ limitPerMinuteAll lib w)%Z →
  let T := limitPerMinute lib w in
  let n := Z.of_nat (length (priors_by_ip request w)) in
  ((n ≤ T)%Z → ∃ w', limitFilter lib request w = (Return (), w')) ∧
  ((T < n)%Z → ∃ w', limitFilter lib request w = (Throw (Error "发言频率过高"), w')).
Proof.
  intros HT Hall T n. rewrite limitFilter_run. unfold limit_outcome.
  fold T n. destruct (T =? 0)%Z eqn:E0; [lia|].
  split; intros Hn; eexists; f_equal.
  - destruct (T <? n)%Z eqn:E1; [lia|].
    destruct Hall as [-> | Hall]; [done|].
    destruct (limitPerMinuteAll lib w =? 0)%Z.
    + by destruct (limitPerMinuteAll lib w <? 0)%Z eqn:E2; [lia|].
    + by destruct (limitPerMinuteAll lib w <? _)%Z eqn:E2; [lia|].
  - by destruct (T <? n)%Z eqn:E1; [|lia].
Qed.

End RateLimiter.

(** ** The configuration store *)

Section ConfigStore.
Context (lib : Lib).

Lemma writeConfig_run (new : Config) w :
  size new ≠ 0 →
  let old := default ∅ (World.tbl_config w) in
  writeConfig lib (Some new) w
  = (Return (),
     World.with_tbl_config (Some (new ∪ old))
       (World.with_executed
          (World.executed w ++ [readConfigQuery; writeConfigStmt (new ∪ old)])
          (World.with_config old w))).
Proof.
  intros Hne old. unfold writeConfig, readConfig, run.
  rewrite bool_decide_eq_false_2 by done.
  destruct w as [tbl cfgrow rc sc ex cfg tok rt nw uu]. mrun.
  by rewrite <- app_assoc.
Qed.

Lemma writeConfig_empty w : writeConfig lib (Some ∅) w = (Return (), w).
Proof. done. Qed.

(** C6: from any stored configuration, writing [{a:1}] and then
    [{b:2}] leaves a stored map with [a:1] and [b:2] in which every
    other key is as before, and a later read returns that map; writing
    [{}] changes nothing. *)
Theorem writeConfig_merges w :
  let w1 := after (writeConfig lib (Some {[ "a" := JNum 1 ]})) w in
  let w2 := after (writeConfig lib (Some {[ "b" := JNum 2 ]})) w1 in
  returns (writeConfig lib (Some {[ "a" := JNum 1 ]})) w ∧
  returns (writeConfig lib (Some {[ "b" := JNum 2 ]})) w1 ∧
  (∃ stored : Config,
     World.tbl_config w2 = Some stored ∧
     (readConfig w2).1 = Return stored ∧
     stored !! "a" = Some (JNum 1) ∧
     stored !! "b" = Some (JNum 2) ∧
     ∀ key, key ≠ "a" → key ≠ "b" →
       stored !! key = default ∅ (World.tbl_config w) !! key) ∧
  writeConfig lib (Some ∅) w = (Return (), w).
Proof.
  intros w1 w2.
  assert (size ({[ "a" := JNum 1 ]} : Config) ≠ 0) as Ha by by rewrite map_size_singleton.
  assert (size ({[ "b" := JNum 2 ]} : Config) ≠ 0) as Hb by by rewrite map_size_singleton.
  pose proof (writeConfig_run _ w Ha) as H1.
  pose proof (writeConfig_run _ w1 Hb) as H2.
  unfold after, returns in *. subst w2. simpl in *.
  split; [rewrite H1; by eexists|].
  split; [rewrite H2; by eexists|].
  split; [|apply writeConfig_empty].
  rewrite H2. subst w1. rewrite H1. simpl.
  eexists. split; [reflexivity|]. split; [reflexivity|].
  split; [|split].
  - apply lookup_union_Some_raw. right. split; [done|].
    apply lookup_union_Some_raw. by left.
  - apply lookup_union_Some_raw. by left.
  - intros key Hka Hkb.
    rewrite !lookup_union, !lookup_singleton_ne by done.
    by destruct (default ∅ (World.tbl_config w) !! key).
Qed.

End ConfigStore.

(** ** The like toggle *)

Lemma toggled_twice uid likes x :
  x ∈ toggled uid (toggled uid likes) ↔ x ∈ likes.
Proof.
  unfold toggled at 2.
  destruct (list_find (λ item, item = uid) likes) as [[i y]|] eqn:E.
  - apply list_find_Some in E as (Hi & -> & _).
    apply list_elem_of_lookup_2 in Hi.
    unfold toggled.
    destruct (list_find _ (filter _ likes)) as [[j z]|] eqn:E2.
    { apply list_find_Some in E2 as (Hj & -> & _).
      apply list_elem_of_lookup_2, list_elem_of_filter in Hj as [Hj _]. done. }
    rewrite elem_of_app, list_elem_of_filter, list_elem_of_singleton.
    destruct (decide (x = uid)) as [->|]; tauto.
  - apply list_find_None in E. rewrite Forall_forall in E.
    unfold toggled.
    destruct (list_find _ (likes ++ [uid])) as [[j z]|] eqn:E2.
    + rewrite filter_app, elem_of_app, !list_elem_of_filter, list_elem_of_singleton.
      split; [intros [[_ ?]|[? ?]]; done|].
      intros Hx. left. split; [|done]. intros ->. by apply (E uid).
    + apply list_find_None in E2. rewrite Forall_forall in E2.
      exfalso. apply (E2 uid); [|done]. apply elem_of_app. right. by left.
Qed.

Lemma toggled_once uid likes : uid ∈ toggled uid likes ↔ uid ∉ likes.
Proof.
  unfold toggled.
  destruct (list_find (λ item, item = uid) likes) as [[i y]|] eqn:E.
  - apply list_find_Some in E as (Hi & -> & _).
    apply list_elem_of_lookup_2 in Hi. rewrite list_elem_of_filter. tauto.
  - apply list_find_None in E. rewrite Forall_forall in E.
    rewrite elem_of_app, list_elem_of_singleton.
    split; [|tauto]. intros _ Hin. by apply (E uid).
Qed.

Lemma head_filter_update id (f : Comment.t → Comment.t) tbl :
  (∀ r, Comment._id (f r) = Comment._id r) →
  head (filter (λ c, Comment._id c = id) (update_where_id id f tbl))
  = f <$> head (filter (λ c, Comment._id c = id) tbl).
Proof.
  intros Hf. unfold update_where_id.
  induction tbl as [|r tbl IH]; [done|].
  rewrite fmap_cons, !filter_cons.
  destruct (decide (Comment._id r = id)) as [Hr|Hr].
  - rewrite decide_True by (by rewrite Hf). done.
  - rewrite decide_False by done. done.
Qed.

Lemma filter_others_update id (f : Comment.t → Comment.t) tbl :
  (∀ r, Comment._id (f r) = Comment._id r) →
  filter (λ c, Comment._id c ≠ id) (update_where_id id f tbl)
  = filter (λ c, Comment._id c ≠ id) tbl.
Proof.
  intros Hf. unfold update_where_id.
  induction tbl as [|r tbl IH]; [done|].
  rewrite fmap_cons, !filter_cons.
  destruct (decide (Comment._id r = id)) as [Hr|Hr].
  - rewrite !decide_False; [done|by intros ?|rewrite Hf; by intros ?].
  - rewrite !decide_True by done. by f_equal.
Qed.

Section Likes.
Context (lib : Lib).

Lemma like_run id uid w c :
  comment_by_id id w = Some c →
  like lib id uid w
  = (Return (),
     World.with_tbl_comment
       (update_where_id id (Comment.with_like (toggled uid (Comment.like c)))
          (World.tbl_comment w))
       (World.with_executed
          (World.executed w
           ++ [commentByIdQuery id; updateLikeStmt id (toggled uid (Comment.like c))])
          w)).
Proof.
  unfold comment_by_id, like, run. simpl. intros Hc.
  destruct w as [tbl cfgrow rc sc ex cfg tok rt nw uu]. mrun.
  simpl in Hc. rewrite Hc. mrun. fold (toggled uid (Comment.like c)).
  by rewrite <- app_assoc.
Qed.

(** C7: for an existing comment and any caller, two like toggles in a
    row both complete and leave the comment with a like list of the
    same membership as at the start, every other column and every
    other row as before; one toggle flips the caller's membership. *)
Theorem like_twice id uid w c :
  comment_by_id id w = Some c →
  let w1 := after (like lib id uid) w in
  let w2 := after (like lib id uid) w1 in
  returns (like lib id uid) w ∧
  returns (like lib id uid) w1 ∧
  (∃ c1, comment_by_id id w1 = Some c1 ∧
         (uid ∈ Comment.like c1 ↔ uid ∉ Comment.like c)) ∧
  (∃ c2, comment_by_id id w2 = Some c2 ∧
         (∀ x, x ∈ Comment.like c2 ↔ x ∈ Comment.like c) ∧
         c2 = Comment.with_like (Comment.like c2) c) ∧
  filter (λ r, Comment._id r ≠ id) (World.tbl_comment w2)
  = filter (λ r, Comment._id r ≠ id) (World.tbl_comment w).
Proof.
  intros Hc w1 w2.
  pose proof (like_run id uid w c Hc) as H1.
  assert (comment_by_id id w1
          = Some (Comment.with_like (toggled uid (Comment.like c)) c)) as Hc1.
  { unfold w1, after. rewrite H1. unfold comment_by_id in *. simpl in *.
    rewrite head_filter_update by done. by rewrite Hc. }
  pose proof (like_run id uid w1 _ Hc1) as H2. simpl in H2.
  assert (comment_by_id id w2
          = Some (Comment.with_like (toggled uid (toggled uid (Comment.like c))) c)) as Hc2.
  { unfold w2, after. rewrite H2. unfold comment_by_id in *. simpl in *.
    rewrite head_filter_update by done. by rewrite Hc1. }
  split; [unfold returns; rewrite H1; by eexists|].
  split; [unfold returns; rewrite H2; by eexists|].
  split. { eexists. split; [exact Hc1|]. simpl. apply toggled_once. }
  split. { eexists. split; [exact Hc2|]. simpl. split; [|done].
           intros x. apply toggled_twice. }
  unfold w2, after. rewrite H2. simpl.
  rewrite filter_others_update by done.
  unfold w1, after. rewrite H1. simpl.
  by rewrite filter_others_update.
Qed.

End Likes.

(** ** Admin mutations and recent comments *)

Section Admin.
Context (lib : Lib).

Lemma isAdmin_run w : isAdmin lib w = (Return (is_admin lib w), w).
Proof. done. Qed.

(** C8: for a requester who is not the admin, COMMENT_SET_FOR_ADMIN and
    COMMENT_DELETE_FOR_ADMIN return the NEED_LOGIN code with its
    message and leave the world, so every comment row, as it was. *)
Theorem admin_mutations_need_login event w :
  is_admin lib w = false →
  commentSetForAdmin lib event w = (Return (need_login lib), w) ∧
  commentDeleteForAdmin lib event w = (Return (need_login lib), w) ∧
  Res.code (need_login lib) = Some (RES_CODE.NEED_LOGIN (RES lib)) ∧
  Res.data (need_login lib) = None.
Proof.
  intros Hadm. unfold commentSetForAdmin, commentDeleteForAdmin.
  unfold mbind, M_bind. rewrite !isAdmin_run, Hadm. done.
Qed.

(** C10: a GET_RECENT_COMMENTS request without [urls] returns a
    response that holds the message of the error thrown on reading
    [urls.map] and nothing else, no [data] in particular, and runs no
    statement. *)
Theorem getRecentComments_without_urls event w :
  Event.urls event = None →
  getRecentComments lib event w
  = (Return (Res.mk None
       (Some "Cannot read properties of undefined (reading 'map')")
       None None None None None), w).
Proof.
  intros Hurls. unfold getRecentComments. rewrite Hurls. done.
Qed.

End Admin.

(** ** What the handlers leave alone *)

Lemma kept_ret {A} (Q : A → Prop) a : Q a → kept Q (mret a).
Proof. intros HQ w. split; [reflexivity|]. by intros ? [= <-]. Qed.

Lemma kept_throw {A} (Q : A → Prop) e : kept Q (throw e).
Proof. intros w. split; [reflexivity|]. intros ? [=]. Qed.

Lemma kept_bind {A B} (P : A → Prop) (Q : B → Prop) (m : M A) (f : A → M B) :
  kept P m → (∀ a, P a → kept Q (f a)) → kept Q (m ≫= f).
Proof.
  intros Hm Hf w. unfold mbind, M_bind.
  destruct (Hm w) as [Hw Ha]. destruct (m w) as [[a|e] w1]; simpl in *.
  - destruct (Hf a (Ha a eq_refl) w1) as [Hw1 Hb].
    split; [congruence|done].
  - split; [done|]. intros ? [=].
Qed.

Lemma kept_weaken {A} (P Q : A → Prop) (m : M A) :
  kept P m → (∀ a, P a → Q a) → kept Q m.
Proof. intros Hm HPQ w. destruct (Hm w) as [? Ha]. split; [done|]. eauto. Qed.

Lemma kept_seq {A B} (Q : B → Prop) (m : M A) (f : A → M B) :
  kept (λ _, True) m → (∀ a, kept Q (f a)) → kept Q (m ≫= f).
Proof. intros Hm Hf. eapply kept_bind; [exact Hm|]. intros a _. apply Hf. Qed.

Lemma kept_try_catch {A} (Q : A → Prop) (m : M A) (h : JsError → M A) :
  kept Q m → (∀ e, kept Q (h e)) → kept Q (try_catch m h).
Proof.
  intros Hm Hh w. unfold try_catch.
  destruct (Hm w) as [Hw Ha]. destruct (m w) as [[a|e] w1]; simpl in *.
  - split; [done|]. intros ? [= <-]. by apply Ha.
  - destruct (Hh e w1) as [Hw1 Hb]. split; [congruence|done].
Qed.

Lemma kept_get : kept (λ _, True) get.
Proof. intros w. split; [reflexivity|done]. Qed.

Lemma kept_modify (f : World.t → World.t) :
  (∀ w, World.accessToken (f w) = World.accessToken w) →
  kept (λ _, True) (modify f).
Proof. intros Hf w. split; [apply Hf|done]. Qed.

Lemma kept_fmap {A B} (P : A → Prop) (f : A → B) (m : M A) :
  kept P m → kept (λ _, True) (f <$> m).
Proof.
  intros Hm. unfold fmap, M_fmap. eapply kept_bind; [exact Hm|].
  intros a _. by apply kept_ret.
Qed.

Lemma kept_for_each {A B} (f : A → M B) l :
  (∀ a, kept (λ _, True) (f a)) → kept (λ _, True) (for_each f l).
Proof.
  intros Hf. induction l as [|x l IH]; simpl; [by apply kept_ret|].
  apply kept_seq; [apply Hf|]. intros y.
  apply kept_seq; [apply IH|]. intros ys. by apply kept_ret.
Qed.

(** Solves [kept] goals by following the structure of the handler. *)
Ltac kept_auto :=
  repeat first
    [ match goal with |- ∀ _, _ => intro end
    | exact kept_get
    | apply kept_throw
    | apply kept_ret; done
    | apply kept_modify; done
    | match goal with
      | H : lib_plain _ |- kept _ (handler _ _ _ _) => apply H
      | H : lib_plain _ |- kept _ (submit _ _ _) => apply H
      | |- kept _ (match ?x with _ => _ end) => destruct x
      | |- kept _ (_ <$> _) => apply (kept_fmap (λ _, True))
      | |- kept _ (for_each _ _) => apply kept_for_each
      | |- kept _ (try_catch _ _) => apply kept_try_catch
      | |- kept _ (_ ≫= _) => apply kept_seq
      | |- kept (λ _, True) _ => eapply kept_weaken; [solve [eauto]|done]
      | |- kept _ _ => solve [eauto]
      end ].

Lemma kept_log q : kept (λ _, True) (log q).
Proof. by apply kept_modify. Qed.

Lemma kept_rows_of q : kept (λ _, True) (rows_of q).
Proof.
  pose proof kept_log.
  destruct q; unfold rows_of; kept_auto.
Qed.

Lemma kept_all q : kept (λ _, True) (all q).
Proof. pose proof kept_rows_of. unfold all. kept_auto. Qed.

Lemma kept_first_count q : kept (λ _, True) (first_count q).
Proof. pose proof kept_rows_of. unfold first_count. kept_auto. Qed.

Lemma kept_first q : kept (λ _, True) (first q).
Proof. pose proof kept_rows_of. unfold first. kept_auto. Qed.

Lemma kept_first_value : kept (λ _, True) first_value.
Proof. pose proof kept_log. unfold first_value. kept_auto. Qed.

Lemma kept_arg {A} (v : option A) : kept (λ _, True) (arg v).
Proof. unfold arg. kept_auto. Qed.

Section Kept.
Context (lib : Lib) (Hlib : lib_plain lib).

Lemma kept_run q : kept (λ _, True) (run lib q).
Proof. pose proof kept_log. unfold run. kept_auto. Qed.

Lemma kept_check event fields : kept (λ _, True) (check lib event fields).
Proof. unfold check. kept_auto. Qed.

Lemma kept_getUid : kept (λ _, True) getUid.
Proof. unfold getUid. kept_auto. Qed.

Lemma kept_isAdmin : kept (λ _, True) (isAdmin lib).
Proof. pose proof kept_getUid. unfold isAdmin. kept_auto. Qed.

Lemma kept_getReplyQuery n : kept (λ _, True) (getReplyQuery n).
Proof. unfold getReplyQuery. kept_auto. Qed.

Lemma kept_getCommentSetStmt fields : kept (λ _, True) (getCommentSetStmt fields).
Proof. unfold getCommentSetStmt. kept_auto. Qed.

Lemma kept_commentGet event : kept plain (commentGet lib event).
Proof.
  pose proof kept_check. pose proof kept_getUid. pose proof kept_isAdmin.
  pose proof @kept_arg. pose proof kept_first_count. pose proof kept_all.
  pose proof kept_getReplyQuery.
  unfold commentGet. kept_auto.
Qed.

Lemma kept_commentSetForAdmin event : kept plain (commentSetForAdmin lib event).
Proof.
  pose proof kept_check. pose proof kept_isAdmin. pose proof @kept_arg.
  pose proof kept_getCommentSetStmt. pose proof kept_run.
  unfold commentSetForAdmin. kept_auto.
Qed.

Lemma kept_commentDeleteForAdmin event : kept plain (commentDeleteForAdmin lib event).
Proof.
  pose proof kept_check. pose proof kept_isAdmin. pose proof @kept_arg.
  pose proof kept_run.
  unfold commentDeleteForAdmin. kept_auto.
Qed.

Lemma kept_like id uid : kept (λ _, True) (like lib id uid).
Proof. pose proof kept_first. pose proof kept_run. unfold like. kept_auto. Qed.

Lemma kept_commentLike event : kept plain (commentLike lib event).
Proof.
  pose proof kept_check. pose proof kept_getUid. pose proof @kept_arg.
  pose proof kept_like.
  unfold commentLike. kept_auto.
Qed.

Lemma kept_limitFilter request : kept (λ _, True) (limitFilter lib request).
Proof. pose proof kept_first_count. unfold limitFilter. kept_auto. Qed.

Lemma kept_commentSubmit event request : kept plain (commentSubmit lib event request).
Proof.
  pose proof kept_check. pose proof kept_limitFilter.
  unfold commentSubmit. kept_auto.
Qed.

Lemma kept_getRecentComments event : kept plain (getRecentComments lib event).
Proof.
  pose proof @kept_arg. pose proof kept_all.
  unfold getRecentComments. kept_auto.
Qed.

Lemma kept_readConfig : kept (λ _, True) readConfig.
Proof. pose proof kept_first_value. unfold readConfig. kept_auto. Qed.

Lemma kept_writeConfig new : kept (λ _, True) (writeConfig lib new).
Proof.
  pose proof kept_readConfig. pose proof kept_run.
  unfold writeConfig. kept_auto.
Qed.

Lemma kept_setConfig event : kept plain (setConfig lib event).
Proof.
  pose proof kept_isAdmin. pose proof kept_writeConfig.
  unfold setConfig. kept_auto.
Qed.

Lemma kept_setPassword event : kept plain (setPassword lib event).
Proof.
  pose proof kept_isAdmin. pose proof kept_writeConfig.
  unfold setPassword. kept_auto.
Qed.

Lemma kept_login password : kept plain (login lib password).
Proof. unfold login. kept_auto. Qed.

Lemma kept_allowCors request : kept (λ _, True) (allowCors lib request).
Proof. unfold allowCors, getAllowedOrigin. kept_auto. Qed.

Lemma kept_dispatch event request : kept plain (dispatch lib event request).
Proof.
  pose proof kept_commentGet. pose proof kept_commentSetForAdmin.
  pose proof kept_commentDeleteForAdmin. pose proof kept_commentLike.
  pose proof kept_commentSubmit. pose proof kept_setPassword.
  pose proof kept_setConfig. pose proof kept_login.
  pose proof kept_getRecentComments.
  unfold dispatch. kept_auto.
Qed.

End Kept.

(** ** The entry point *)

Section Fetch.
Context (lib : Lib) (Hlib : lib_plain lib).

Lemma bind_run {A B} (m : M A) (f : A → M B) w :
  (m ≫= f) w
  = match m w with
    | (Return a, w') => f a w'
    | (Throw e, w') => (Throw e, w')
    end.
Proof. done. Qed.

Lemma protect_run request w :
  let times := (num_or (World.requestTimes w !! getIp request) 0 + 1)%Z in
  protect lib request w
  = (if (MAX_REQUEST_TIMES lib <? times)%Z
     then Throw (Error "Too Many Requests") else Return (),
     World.with_requestTimes (<[getIp request := times]> (World.requestTimes w)) w).
Proof.
  intros times. unfold protect. mrun. fold times.
  by destruct (MAX_REQUEST_TIMES lib <? times)%Z.
Qed.

Lemma anonymousSignIn_fresh event w :
  truthy (JStr <$> Event.accessToken event) = false →
  anonymousSignIn lib event w
  = (Return (remove_dashes (uuidv4 lib (World.uuids w))),
     World.with_uuids (S (World.uuids w)) w).
Proof.
  unfold anonymousSignIn. destruct (Event.accessToken event) as [tok|]; simpl.
  - by intros ->.
  - done.
Qed.

Lemma kept_fetch_rest event request :
  kept (λ out, (∀ res, out = Some res → plain res)
               ∧ (out = None → Request.method request = "OPTIONS"))
    (fetch_rest lib event request).
Proof.
  unfold fetch_rest.
  apply kept_seq; [apply kept_readConfig|]. intros _.
  apply kept_seq; [by apply kept_allowCors|]. intros _.
  destruct (String.eqb (Request.method request) "OPTIONS") eqn:E.
  - apply kept_ret. split; [done|]. intros _. by apply String.eqb_eq.
  - eapply kept_bind; [by apply kept_dispatch|]. intros res Hres.
    apply kept_ret. split; [by intros ? [= <-]|done].
Qed.

Lemma fetch_try_run request w :
  unsupplied request →
  let event := default Event.empty (Request.json request) in
  ∃ out w1,
    fetch_try lib event request w = (Return out, w1) ∧
    (∀ res, out = Some res → plain res) ∧
    (out = None → Request.method request = "OPTIONS") ∧
    ((num_or (World.requestTimes w !! getIp request) 0 + 1
      ≤ MAX_REQUEST_TIMES lib)%Z →
     World.accessToken w1 = remove_dashes (uuidv4 lib (World.uuids w))).
Proof.
  intros Hun event. unfold unsupplied in Hun. fold event in Hun.
  unfold fetch_try. fold (fetch_rest lib event request).
  unfold try_catch. rewrite bind_run, protect_run.
  destruct (MAX_REQUEST_TIMES lib <? _)%Z eqn:E; simpl.
  { eexists _, _. split; [reflexivity|].
    split; [by intros res [= <-]|]. split; [done|]. lia. }
  rewrite bind_run, anonymousSignIn_fresh by done. rewrite bind_run. simpl.
  match goal with |- context [ fetch_rest lib event request ?w3 ] =>
    destruct (kept_fetch_rest event request w3) as [Htok Hout];
    destruct (fetch_rest lib event request w3) as [[out|e] w4]
  end; simpl in *.
  - destruct (Hout out eq_refl) as [Hplain Hopt].
    eexists _, _. split; [reflexivity|]. by rewrite Htok.
  - eexists _, _. split; [reflexivity|].
    split; [by intros res [= <-]|]. split; [done|]. by rewrite Htok.
Qed.

(** C9, amended: for a request with a body whose caller supplied no
    accessToken (and with library handlers that leave the token
    alone), [fetch] answers, and a JSON response carries an
    accessToken field exactly when its [code] is absent or 0; the
    field holds the token of the request, which is the newly issued
    one whenever the request passed [protect].  A response with a
    non-zero code carries no accessToken. *)
Theorem fetch_accessToken request w :
  Request.body request = true →
  unsupplied request →
  ∃ r w',
    fetch lib request w = (Return r, w') ∧
    match Response.body r with
    | None => Request.method request = "OPTIONS"
    | Some res =>
        (truthy (JNum <$> Res.code res) = false →
           Res.accessToken res = Some (World.accessToken w')) ∧
        (truthy (JNum <$> Res.code res) = true → Res.accessToken res = None) ∧
        ((num_or (World.requestTimes w !! getIp request) 0 + 1
          ≤ MAX_REQUEST_TIMES lib)%Z →
         World.accessToken w' = remove_dashes (uuidv4 lib (World.uuids w)))
    end.
Proof.
  intros Hbody Hun.
  destruct (fetch_try_run request w Hun) as (out & w1 & Htry & Hplain & Hopt & Htok).
  unfold fetch. unfold mbind, M_bind. rewrite Htry.
  destruct out as [res|].
  - specialize (Hplain res eq_refl). unfold plain in Hplain.
    destruct (truthy (JNum <$> Res.code res)) eqn:Hcode; simpl.
    + eexists _, _. split; [reflexivity|]. simpl. rewrite Hcode. done.
    + rewrite Hbody. eexists _, _. split; [reflexivity|]. simpl.
      rewrite Hcode. done.
  - eexists _, _. split; [reflexivity|]. simpl. by apply Hopt.
Qed.

End Fetch.

(** ** More sample requests *)

Lemma limitFilter_off_by_one_witness :
  ∃ w', limitFilter sample_lib (request_from "10.0.0.9" Event.empty) limit_world
        = (Return (), w').
Proof.
  apply (limitFilter_off_by_one sample_lib (request_from "10.0.0.9" Event.empty)
           limit_world); [reflexivity | left; reflexivity | by vm_compute].
Defined.

Lemma like_twice_witness :
  ∃ c2,
    comment_by_id "c1"
      (after (like sample_lib "c1" "bob")
         (after (like sample_lib "c1" "bob") sample_world)) = Some c2 ∧
    ∀ x, x ∈ Comment.like c2 ↔ x ∈ ["bob"].
Proof.
  destruct (like_twice sample_lib "c1" "bob" sample_world
              (row "c1" "alice" "/post" "" 0 100 0 ["bob"] "10.0.0.1") eq_refl)
    as (_ & _ & _ & (c2 & Hc2 & Hlike & _) & _).
  exists c2. split; [exact Hc2 | exact Hlike].
Defined.

Lemma admin_mutations_need_login_witness :
  commentDeleteForAdmin sample_lib (admin_event "COMMENT_DELETE_FOR_ADMIN" "c1")
    sample_world
  = (Return (need_login sample_lib), sample_world).
Proof.
  apply (admin_mutations_need_login sample_lib
           (admin_event "COMMENT_DELETE_FOR_ADMIN" "c1") sample_world eq_refl).
Defined.

Lemma getRecentComments_without_urls_witness :
  getRecentComments sample_lib recent_event sample_world
  = (Return (Res.of_message "Cannot read properties of undefined (reading 'map')"),
     sample_world).
Proof.
  apply (getRecentComments_without_urls sample_lib recent_event sample_world eq_refl).
Defined.

Lemma fetch_accessToken_witness :
  ∃ r w',
    fetch sample_lib (request_from "10.0.0.5" (get_event "/post" None)) sample_world
    = (Return r, w').
Proof.
  assert (lib_plain sample_lib) as Hplain.
  { split; intros; by apply kept_ret. }
  destruct (fetch_accessToken sample_lib Hplain
              (request_from "10.0.0.5" (get_event "/post" None)) sample_world
              eq_refl eq_refl)
    as (r & w' & Hrun & _).
  exists r, w'. exact Hrun.
Defined.

(** C9 as the specification states it fails on a response with a
    non-zero code: the caller of COMMENT_DELETE_FOR_ADMIN below supplied
    no accessToken and is not the admin, and the NEED_LOGIN response
    carries no accessToken. *)
Lemma fetch_need_login_without_token :
  let request :=
    request_from "10.0.0.5" (admin_event "COMMENT_DELETE_FOR_ADMIN" "c1") in
  unsupplied request ∧
  Request.body request = true ∧
  ∃ res w',
    fetch sample_lib request sample_world
    = (Return (Response.mk 200 (Some res)), w') ∧
    Res.code res = Some 1024%Z ∧
    Res.accessToken res = None ∧
    World.accessToken w' = "4f1a".
Proof.
  split; [reflexivity|]. split; [reflexivity|].
  eexists _, _. split; [by vm_compute|]. by split.
Qed.

(** The test in [fetch] reads [request.body.accessToken], not the
    parsed body: a caller who did supply a token gets it back as well. *)
Lemma fetch_echoes_supplied_token :
  let event :=
    Event.mk (Some "COMMENT_GET") (Some "tok") (Some "/none") None None None
      None None None None None in
  ∃ res w',
    fetch sample_lib (request_from "10.0.0.5" event) sample_world
    = (Return (Response.mk 200 (Some res)), w') ∧
    Res.code res = None ∧
    Res.accessToken res = Some "tok".
Proof. eexists _, _. split; [by vm_compute|]. by split. Qed.

(** * More properties *)

(** ** Reading comments: errors, limits and the cursor *)

Section CommentGetMore.
Context (lib : Lib).

(** X1: a COMMENT_GET request that fails validation is answered with
    the message of the error and an empty [data] list; the call does
    not throw, runs no statement and leaves the world as it was. *)
Theorem commentGet_invalid event w m :
  validate lib event ["url"] = Some m →
  commentGet lib event w
  = (Return (Res.mk None (Some m) (Some (Rows [])) None None None None), w).
Proof.
  intros Hv. unfold commentGet. mrun. rewrite Hv. by mrun.
Qed.

(** X2: with a negative page size in the configuration, every
    COMMENT_GET request that passes validation is answered with
    [more = true], whatever the table holds; the non-pinned query then
    runs without a limit when the size is below -1. *)
Theorem commentGet_negative_page_size event w u :
  validate lib event ["url"] = None →
  Event.url event = Some u →
  (page_limit lib w < 0)%Z →
  ∃ res w',
    commentGet lib event w = (Return res, w') ∧
    Res.more res = Some true ∧
    ((page_limit lib w < -1)%Z → fetched lib u event w = matching lib u event w).
Proof.
  intros Hv Hu HL. rewrite (commentGet_run lib w event u Hv Hu).
  eexists _, _. split; [reflexivity|]. split.
  - unfold response. simpl. f_equal. apply bool_decide_eq_true_2. lia.
  - intros HL1. unfold fetched, main_query, matching. simpl.
    unfold sql_limit. destruct (page_limit lib w + 1 <? 0)%Z eqn:E; [done|lia].
Qed.

Lemma Sorted_take_last (l : list Comment.t) n c x :
  Sorted newer_first l →
  last (take n l) = Some c → x ∈ take n l →
  (Comment.created c ≤ Comment.created x)%Z.
Proof.
  intros Hs%(Sorted_StronglySorted _) Hl Hx.
  assert (StronglySorted newer_first (take n l)) as Hs'.
  { rewrite <- (take_drop n l) in Hs. by apply StronglySorted_app_1_l in Hs. }
  revert Hl Hx Hs'. generalize (take n l). clear. intros l.
  induction l as [|y l IH]; [by intros ? ?%elem_of_nil|].
  intros Hl Hx Hs. apply StronglySorted_inv in Hs as [Hs Hall].
  destruct l as [|z l].
  - simpl in Hl. injection Hl as ->.
    apply list_elem_of_singleton in Hx as ->. lia.
  - rewrite last_cons_cons in Hl.
    apply elem_of_cons in Hx as [->|Hx]; [|by apply IH].
    rewrite Forall_forall in Hall.
    apply (Hall c). apply last_Some_elem_of in Hl. done.
Qed.

(** X3: paging by cursor never shows a comment twice.  With a positive
    page size, let a second COMMENT_GET for the same page carry as
    [before] the creation time of the last comment of the first
    response: both calls return, and every non-pinned comment of the
    second response is strictly older than every non-pinned comment of
    the first. *)
Theorem commentGet_cursor_no_overlap w ev1 ev2 u c :
  validate lib ev1 ["url"] = None → Event.url ev1 = Some u →
  validate lib ev2 ["url"] = None → Event.url ev2 = Some u →
  (0 < page_limit lib w)%Z →
  last (page lib u ev1 w) = Some c →
  Event.before ev2 = Some (Comment.created c) →
  let w1 := after (commentGet lib ev1) w in
  (commentGet lib ev1 w).1 = Return (response lib u ev1 w) ∧
  (commentGet lib ev2 w1).1 = Return (response lib u ev2 w1) ∧
  ∀ c1 c2, c1 ∈ page lib u ev1 w → c2 ∈ page lib u ev2 w1 →
    (Comment.created c2 < Comment.created c1)%Z.
Proof.
  intros Hv1 Hu1 Hv2 Hu2 HL Hlast Hb w1. unfold w1, after.
  rewrite (commentGet_run lib w ev1 u Hv1 Hu1). simpl.
  rewrite (commentGet_run lib _ ev2 u Hv2 Hu2). simpl.
  split; [done|]. split; [done|].
  change (page lib u ev2 (world_after lib u ev1 w)) with (page lib u ev2 w).
  intros c1 c2 H1 H2.
  apply page_elem, matching_elem in H2 as [(_ & _ & Hlt & _) _].
  unfold cursor in Hlt. rewrite Hb in Hlt. simpl in Hlt.
  rewrite page_take in Hlast, H1 by done.
  pose proof (Sorted_take_last _ _ _ _
    (order_by_created_desc_Sorted _) Hlast H1). lia.
Qed.

Lemma filter_two_length {A} (P Q R : A → Prop) `{∀ x, Decision (P x)}
    `{∀ x, Decision (Q x)} `{∀ x, Decision (R x)} (l : list A) :
  (∀ x, P x → R x) → (∀ x, Q x → R x) → (∀ x, P x → Q x → False) →
  length (filter P l) + length (filter Q l) ≤ length (filter R l).
Proof.
  intros HP HQ HPQ. induction l as [|a l IH]; [done|].
  rewrite !filter_cons.
  destruct (decide (P a)) as [Ha|Ha]; destruct (decide (Q a)) as [Hb|Hb];
    destruct (decide (R a)) as [Hc|Hc]; simpl; try lia.
  - destruct (HPQ a Ha Hb).
  - destruct (HPQ a Ha Hb).
  - destruct (Hc (HP a Ha)).
  - destruct (Hc (HQ a Hb)).
Qed.

Lemma page_sublist u event w : page lib u event w `sublist_of` matching lib u event w.
Proof.
  assert (fetched lib u event w `sublist_of` matching lib u event w) as Hf.
  { unfold fetched, main_query, matching. simpl. unfold sql_limit.
    destruct (_ <? 0)%Z; [done|]. apply sublist_take. }
  unfold page. case_bool_decide; [|done].
  etrans; [|exact Hf]. unfold splice1. apply sublist_delete.
Qed.

(** X4: the [count] of a COMMENT_GET response is never smaller than
    the number of top-level comments, pinned and not, that the
    response holds. *)
Theorem commentGet_count_covers w event u :
  validate lib event ["url"] = None →
  Event.url event = Some u →
  ∃ res w' n,
    commentGet lib event w = (Return res, w') ∧
    Res.count res = Some n ∧
    (Z.of_nat (length (pinned lib u event w ++ page lib u event w)) ≤ n)%Z.
Proof.
  intros Hv Hu. rewrite (commentGet_run lib w event u Hv Hu).
  eexists _, _, _. split; [reflexivity|]. split; [reflexivity|].
  apply inj_le. rewrite length_app.
  pose proof (sublist_length _ _ (page_sublist u event w)) as Hp.
  unfold matching in Hp. rewrite order_by_created_desc_length in Hp.
  assert (length (pinned lib u event w)
          ≤ length (filter (where_comment u (spam_arg (is_admin lib w))
              (World.accessToken w) MAX_TIMESTAMP_MILLIS 1) (World.tbl_comment w)))
    as Ht.
  { unfold pinned. destruct (pinned_fetch event w); [|simpl; lia].
    unfold pinned_query. simpl. unfold sql_limit. simpl.
    rewrite length_take, order_by_created_desc_length. lia. }
  unfold count_query. simpl.
  etrans; [|apply (filter_two_length
    (where_comment u (spam_arg (is_admin lib w)) (World.accessToken w)
       MAX_TIMESTAMP_MILLIS 1)
    (where_comment u (spam_arg (is_admin lib w)) (World.accessToken w)
       (cursor event) 0))].
  - lia.
  - unfold where_comment, where_commentCount. tauto.
  - unfold where_comment, where_commentCount. tauto.
  - unfold where_comment. intros x (_ & _ & _ & H1 & _) (_ & _ & _ & H0 & _).
    rewrite H1 in H0. done.
Qed.

End CommentGetMore.

Lemma NoDup_fmap_elem_inj {A B} (f : A → B) (l : list A) x y :
  NoDup (f <$> l) → x ∈ l → y ∈ l → f x = f y → x = y.
Proof.
  induction l as [|a l IH]; [by intros _ ?%elem_of_nil|].
  rewrite fmap_cons, NoDup_cons, !elem_of_cons.
  intros [Ha Hl] [->|Hx] [->|Hy] Hf; try done.
  - exfalso. apply Ha. rewrite Hf. by apply list_elem_of_fmap_2.
  - exfalso. apply Ha. rewrite <- Hf. by apply list_elem_of_fmap_2.
  - by apply IH.
Qed.

Lemma filter_all {A} (P : A → Prop) `{∀ x, Decision (P x)} (l : list A) :
  (∀ x, x ∈ l → P x) → filter P l = l.
Proof.
  induction l as [|a l IH]; [done|]. intros Hl.
  rewrite filter_cons, decide_True by (apply Hl; by left).
  f_equal. apply IH. intros x Hx. apply Hl. by right.
Qed.

Lemma filter_nil_elem {A} (P : A → Prop) `{∀ x, Decision (P x)} (l : list A) :
  (∀ x, x ∈ l → ¬ P x) → filter P l = [].
Proof.
  induction l as [|a l IH]; [done|]. intros Hl.
  rewrite filter_cons, decide_False by (apply Hl; by left).
  apply IH. intros x Hx. apply Hl. by right.
Qed.

(** In a list sorted newest first whose creation times are distinct,
    the rows older than the last of the first [n] are the rows after
    the first [n]. *)
Lemma older_than_last_drop (l : list Comment.t) n c :
  Sorted newer_first l →
  NoDup (Comment.created <$> l) →
  last (take n l) = Some c →
  filter (λ x, (Comment.created x < Comment.created c)%Z) l
  = drop (length (take n l)) l.
Proof.
  intros Hs Hnd Hl.
  pose proof (λ x, Sorted_take_last l n c x Hs Hl) as Hge.
  apply (Sorted_StronglySorted _) in Hs.
  rewrite <- (take_drop n l) in Hs, Hnd at 1.
  rewrite <- (take_drop n l) at 1 3.
  revert Hs Hnd Hl Hge. generalize (take n l), (drop n l). clear.
  intros A B Hs Hnd Hl Hge.
  rewrite drop_app_length, filter_app.
  rewrite (filter_nil_elem _ A), (filter_all _ B); [done| |].
  - intros x Hx.
    assert (c ∈ A) as Hc by by apply last_Some_elem_of.
    pose proof (StronglySorted_app_1_elem_of _ _ _ _ _ Hs Hc Hx) as Hle.
    unfold newer_first in Hle.
    destruct (decide (Comment.created x = Comment.created c)) as [Heq|]; [|lia].
    exfalso. rewrite fmap_app in Hnd. apply NoDup_app in Hnd as (_ & Hd & _).
    apply (Hd (Comment.created c)); [by apply list_elem_of_fmap_2|].
    rewrite <- Heq. by apply list_elem_of_fmap_2.
  - intros x Hx Hlt. specialize (Hge x Hx). lia.
Qed.

Section CommentGetPaging.
Context (lib : Lib).

(** With distinct creation times, the rows matching the cursor taken
    from the last row of a page are the matching rows after that
    page. *)
Lemma matching_after_page w ev1 ev2 u c :
  (0 < page_limit lib w)%Z →
  NoDup (Comment.created <$> World.tbl_comment w) →
  last (page lib u ev1 w) = Some c →
  Event.before ev2 = Some (Comment.created c) →
  matching lib u ev2 w
  = drop (length (page lib u ev1 w)) (matching lib u ev1 w).
Proof.
  intros HL Hnd Hlast Hb.
  assert (c ∈ matching lib u ev1 w) as Hc
    by by apply page_elem, last_Some_elem_of.
  apply matching_elem in Hc as [(_ & _ & Hcb & _) _].
  rewrite page_take in Hlast |- * by done.
  assert (NoDup (Comment.created <$> matching lib u ev1 w)) as Hnd1.
  { unfold matching. rewrite order_by_created_desc_perm.
    eapply sublist_NoDup; [exact Hnd|].
    apply fmap_sublist, sublist_filter. }
  rewrite <- (older_than_last_drop (matching lib u ev1 w) _ c
    (order_by_created_desc_Sorted _) Hnd1 Hlast).
  apply (Sorted_unique_strong newer_first).
  - intros x1 x2 H1 H2 Hle1 Hle2.
    apply matching_elem in H1 as [_ H1].
    apply list_elem_of_filter in H2 as [_ [_ H2]%matching_elem].
    apply (NoDup_fmap_elem_inj Comment.created (World.tbl_comment w)); try done.
    unfold newer_first in *. lia.
  - apply order_by_created_desc_Sorted.
  - apply StronglySorted_Sorted.
    pose proof (Sorted_StronglySorted _ _ (order_by_created_desc_Sorted
      (filter (where_comment u (spam_arg (is_admin lib w)) (World.accessToken w)
                 (cursor ev1) 0) (World.tbl_comment w)))) as Hs.
    fold (matching lib u ev1 w) in Hs.
    revert Hs. generalize (matching lib u ev1 w). clear. intros l Hs.
    induction Hs as [|x l Hs IH Hall]; [constructor|].
    rewrite filter_cons. destruct (decide _); [|done].
    constructor; [done|].
    rewrite Forall_forall in Hall |- *.
    intros y [_ Hy]%list_elem_of_filter. by apply Hall.
  - unfold matching. rewrite !order_by_created_desc_perm.
    rewrite list_filter_filter.
    erewrite list_filter_iff; [reflexivity|].
    intros x. unfold where_comment, cursor. rewrite Hb. simpl.
    unfold cursor in Hcb. intuition lia.
Qed.

(** X5: paging by cursor skips nothing when creation times are
    distinct.  With a positive page size [L] and a table whose rows
    all differ in [created], the non-pinned comments of a response,
    followed by those of the response to the same request with the
    cursor taken from the last of them, are the first [2 L] matching
    comments, newest first. *)
Theorem commentGet_cursor_contiguous w ev1 ev2 u c :
  validate lib ev1 ["url"] = None → Event.url ev1 = Some u →
  validate lib ev2 ["url"] = None → Event.url ev2 = Some u →
  (0 < page_limit lib w)%Z →
  NoDup (Comment.created <$> World.tbl_comment w) →
  last (page lib u ev1 w) = Some c →
  Event.before ev2 = Some (Comment.created c) →
  let w1 := after (commentGet lib ev1) w in
  (commentGet lib ev1 w).1 = Return (response lib u ev1 w) ∧
  (commentGet lib ev2 w1).1 = Return (response lib u ev2 w1) ∧
  page lib u ev1 w ++ page lib u ev2 w1
  = take (2 * Z.to_nat (page_limit lib w)) (matching lib u ev1 w).
Proof.
  intros Hv1 Hu1 Hv2 Hu2 HL Hnd Hlast Hb w1. unfold w1, after.
  rewrite (commentGet_run lib w ev1 u Hv1 Hu1). simpl.
  rewrite (commentGet_run lib _ ev2 u Hv2 Hu2). simpl.
  split; [done|]. split; [done|].
  change (page lib u ev2 (world_after lib u ev1 w)) with (page lib u ev2 w).
  rewrite (page_take lib u ev2) by done.
  rewrite (matching_after_page w ev1 ev2 u c) by done.
  rewrite page_take by done.
  set (n := Z.to_nat (page_limit lib w)). set (S := matching lib u ev1 w).
  rewrite length_take.
  destruct (decide (n ≤ length S)) as [Hle|Hgt].
  - rewrite Nat.min_l by done. rewrite take_take_drop. f_equal. lia.
  - rewrite Nat.min_r by lia. rewrite drop_all, take_nil, app_nil_r.
    rewrite !take_ge; [done|lia..].
Qed.

End CommentGetPaging.

(** ** Likes, statement caches and admin mutations *)

Lemma toggled_others uid likes x : x ≠ uid → x ∈ toggled uid likes ↔ x ∈ likes.
Proof.
  intros Hx. unfold toggled.
  destruct (list_find (λ item, item = uid) likes) as [[i y]|].
  - rewrite list_elem_of_filter. tauto.
  - rewrite elem_of_app, list_elem_of_singleton. tauto.
Qed.

Lemma toggled_NoDup uid likes : NoDup likes → NoDup (toggled uid likes).
Proof.
  intros Hnd. unfold toggled.
  destruct (list_find (λ item, item = uid) likes) as [[i y]|] eqn:E.
  - by apply NoDup_filter.
  - apply list_find_None in E. rewrite Forall_forall in E.
    apply NoDup_app. split; [done|]. split; [|apply NoDup_singleton].
    intros x Hx ->%list_elem_of_singleton. by apply (E uid).
Qed.

Lemma units_le_total a b : units_le a b = true ∨ units_le b a = true.
Proof.
  revert b. induction a as [|x a IH]; intros [|y b]; simpl; try tauto.
  destruct (x <? y)%N eqn:Exy; destruct (y <? x)%N eqn:Eyx; try tauto.
  apply IH.
Qed.

Global Instance js_le_total : Total js_le.
Proof. intros a b. apply units_le_total. Qed.

Section MutationsMore.
Context (lib : Lib).

(** X6: a like for an identifier that no comment has completes, runs
    only the lookup by identifier, and leaves every row as it was. *)
Theorem like_missing id uid w :
  comment_by_id id w = None →
  like lib id uid w
  = (Return (), World.with_executed (World.executed w ++ [commentByIdQuery id]) w).
Proof.
  unfold comment_by_id, like. simpl. intros Hc.
  destruct w as [tbl cfgrow rc sc ex cfg tok rt nw uu]. mrun.
  simpl in Hc. by rewrite Hc.
Qed.

(** X7: a like toggle changes the membership of the caller only: in
    the like list of the comment after the toggle every other
    identity is present exactly if it was before, and a list without
    duplicates stays without duplicates. *)
Theorem like_others_kept id uid w c :
  comment_by_id id w = Some c →
  ∃ c1, comment_by_id id (after (like lib id uid) w) = Some c1 ∧
        (∀ x, x ≠ uid → x ∈ Comment.like c1 ↔ x ∈ Comment.like c) ∧
        (NoDup (Comment.like c) → NoDup (Comment.like c1)).
Proof.
  intros Hc. unfold after. rewrite (like_run lib id uid w c Hc). simpl.
  unfold comment_by_id in *. simpl in *.
  rewrite head_filter_update by done. rewrite Hc. simpl.
  eexists. split; [reflexivity|]. simpl. split.
  - intros x Hx. by apply toggled_others.
  - apply toggled_NoDup.
Qed.

(** X8: the statement caches hold what was prepared.  A call of
    [getReplyQuery] for a number of placeholders that has an entry in
    the cache returns that entry as it is, whatever it holds, and
    changes nothing: no statement is prepared.  A call for a number
    without an entry prepares the statement from the template, with
    that many placeholders, stores it under the number and leaves the
    other entries alone, so that a second call is answered from the
    cache.  [getCommentSetStmt] does the same under the list of
    fields. *)
Theorem statement_caches_stable n fields w :
  (∀ cached, World.replyQueryCache w !! n = Some cached →
     getReplyQuery n w = (Return cached, w)) ∧
  (World.replyQueryCache w !! n = None →
     let result := replyQueryTemplate (String.concat ", " (replicate n "?")) in
     let w1 := after (getReplyQuery n) w in
     (getReplyQuery n w).1 = Return result ∧
     World.replyQueryCache w1 = <[n := result]> (World.replyQueryCache w) ∧
     World.tbl_comment w1 = World.tbl_comment w ∧
     getReplyQuery n w1 = (Return result, w1)) ∧
  (∀ cached, World.commentSetStmtCache w !! fields = Some cached →
     getCommentSetStmt fields w = (Return cached, w)) ∧
  (World.commentSetStmtCache w !! fields = None →
     let result := commentSetStmtTemplate
       (String.concat ", " ((λ field, field +:+ " = ?") <$> fields)) in
     let w1 := after (getCommentSetStmt fields) w in
     (getCommentSetStmt fields w).1 = Return result ∧
     World.commentSetStmtCache w1 = <[fields := result]> (World.commentSetStmtCache w) ∧
     World.tbl_comment w1 = World.tbl_comment w ∧
     getCommentSetStmt fields w1 = (Return result, w1)).
Proof.
  destruct w as [tbl cfgrow rc sc ex cfg tok rt nw uu].
  unfold after, getReplyQuery, getCommentSetStmt. mrun.
  split; [by intros cached ->|]. split.
  { intros ->. mrun. rewrite lookup_insert_eq. done. }
  split; [by intros cached ->|].
  intros ->. mrun. rewrite lookup_insert_eq. done.
Qed.

(** X9: for the admin, COMMENT_DELETE_FOR_ADMIN with a valid [id]
    answers SUCCESS and removes exactly the rows with that identifier:
    every other row stays, in its place, the replies to the deleted
    comment among them; deleting the same identifier again changes no
    row. *)
Theorem commentDeleteForAdmin_removes event w id :
  is_admin lib w = true →
  validate lib event ["id"] = None →
  Event.id event = Some id →
  let w1 := after (commentDeleteForAdmin lib event) w in
  (commentDeleteForAdmin lib event w).1
    = Return (Res.of_code (RES_CODE.SUCCESS (RES lib))) ∧
  World.tbl_comment w1 = filter (λ c, Comment._id c ≠ id) (World.tbl_comment w) ∧
  (∀ c, c ∈ World.tbl_comment w → Comment._id c ≠ id → Comment.rid c = id →
        c ∈ World.tbl_comment w1) ∧
  World.tbl_comment (after (commentDeleteForAdmin lib event) w1)
  = World.tbl_comment w1.
Proof.
  intros Hadm Hv Hid w1.
  assert (∀ w', is_admin lib w' = true →
    commentDeleteForAdmin lib event w'
    = (Return (Res.of_code (RES_CODE.SUCCESS (RES lib))),
       World.with_tbl_comment (filter (λ c, Comment._id c ≠ id) (World.tbl_comment w'))
         (World.with_executed (World.executed w' ++ [commentDeleteStmt id]) w')))
    as Hrun.
  { intros w' Hadm'. unfold commentDeleteForAdmin.
    unfold mbind at 1, M_bind at 1. rewrite isAdmin_run, Hadm'.
    unfold check, run. rewrite Hv, Hid. by mrun. }
  unfold w1, after. rewrite (Hrun w Hadm). simpl.
  split; [done|]. split; [done|]. split.
  - intros c Hc Hne _. apply list_elem_of_filter. done.
  - rewrite Hrun by done. simpl. rewrite list_filter_filter.
    apply list_filter_iff. tauto.
Qed.


End MutationsMore.

(** ** The rate limiter and the submission pipeline *)

Section LimiterMore.
Context (lib : Lib).

(** X11: the check per IP comes first.  When the per-IP threshold is
    not 0 and the IP of the request has more submissions in the window
    than it allows, the limiter throws the per-IP error, whatever the
    count over all IPs is; both count queries have run by then unless
    the global threshold is 0.  A negative per-IP threshold therefore
    rejects every submission. *)
Theorem limitFilter_per_ip_first request w :
  limitPerMinute lib w ≠ 0%Z →
  (limitPerMinute lib w < Z.of_nat (length (priors_by_ip request w)))%Z
  ∨ (limitPerMinute lib w < 0)%Z →
  limitFilter lib request w
  = (Throw (Error "发言频率过高"),
     World.with_executed
       (World.executed w
        ++ [commentCountSinceByIpQuery (World.now w - 600000) (getIp request)]
        ++ (if (limitPerMinuteAll lib w =? 0)%Z then []
            else [commentCountSinceQuery (World.now w - 600000)])) w).
Proof.
  intros Hne Hlt. rewrite limitFilter_run.
  unfold limit_outcome, limit_statements.
  apply Z.eqb_neq in Hne. rewrite Hne.
  assert ((limitPerMinute lib w <? Z.of_nat (length (priors_by_ip request w)))%Z = true)
    as -> by (apply Z.ltb_lt; lia).
  done.
Qed.

(** X12: a submission that the limiter rejects goes no further: the
    call throws the limiter's error and the world is as the limiter
    left it, with every row as before; the steps after the limiter are
    not run. *)
Theorem commentSubmit_limited event request w e :
  validate lib event ["url"; "ua"; "comment"] = None →
  limit_outcome lib request w = Throw e →
  commentSubmit lib event request w
  = (Throw e,
     World.with_executed (World.executed w ++ limit_statements lib request w) w).
Proof.
  intros Hv He. unfold commentSubmit.
  unfold mbind, M_bind, check. rewrite Hv. simpl.
  rewrite limitFilter_run, He. done.
Qed.

End LimiterMore.

(** ** The request guard, the access token and the allowed origins *)

Lemma remove_dashes_clean s a :
  a ∈ String.list_ascii_of_string (remove_dashes s) → a ≠ "-"%char.
Proof.
  induction s as [|b s IH]; simpl; [by intros ?%elem_of_nil|].
  destruct (Ascii.eqb b "-") eqn:E; [done|].
  simpl. intros [->|H]%elem_of_cons; [|by apply IH].
  by apply Ascii.eqb_neq.
Qed.

Lemma append_cons x (a b : string) : String x a +:+ b = String x (a +:+ b).
Proof. reflexivity. Qed.

Lemma append_assoc_string (a b c : string) : (a +:+ b) +:+ c = a +:+ (b +:+ c).
Proof. induction a as [|x a IH]; [done|]. by rewrite !append_cons, IH. Qed.

Lemma append_empty (s : string) : s +:+ "" = s.
Proof. induction s as [|x s IH]; [done|]. by rewrite append_cons, IH. Qed.

Lemma rev_app_append s t : String.rev_app s t = String.rev s +:+ t.
Proof.
  unfold String.rev. revert t. induction s as [|a s IH]; intros t; [done|].
  simpl. rewrite (IH (String a t)), (IH (String a "")), append_assoc_string. done.
Qed.

Lemma rev_cons_append a cur s :
  String.rev (String a cur) +:+ s = String.rev cur +:+ String a s.
Proof.
  unfold String.rev at 1. simpl. by rewrite rev_app_append, append_assoc_string.
Qed.

Lemma split_go_plain cur s :
  ","%char ∉ String.list_ascii_of_string s →
  split_go cur s = [String.rev cur +:+ s].
Proof.
  revert cur. induction s as [|a s IH]; intros cur Hs; simpl.
  - by rewrite append_empty.
  - simpl in Hs. apply not_elem_of_cons in Hs as [Ha Hs].
    destruct (Ascii.eqb a ",") eqn:E; [by apply Ascii.eqb_eq in E|].
    rewrite IH by done. by rewrite rev_cons_append.
Qed.

Lemma split_go_comma cur s t :
  ","%char ∉ String.list_ascii_of_string s →
  split_go cur (s +:+ String "," t) = (String.rev cur +:+ s) :: split_go "" t.
Proof.
  revert cur. induction s as [|a s IH]; intros cur Hs.
  - simpl. by rewrite append_empty.
  - rewrite append_cons. simpl in *. apply not_elem_of_cons in Hs as [Ha Hs].
    destruct (Ascii.eqb a ",") eqn:E; [by apply Ascii.eqb_eq in E|].
    rewrite IH by done. by rewrite rev_cons_append.
Qed.

(** Splitting at the commas undoes joining with commas. *)
Lemma split_comma_concat entries :
  entries ≠ [] →
  Forall (λ e, ","%char ∉ String.list_ascii_of_string e) entries →
  split_comma (String.concat "," entries) = entries.
Proof.
  intros Hne Hall. unfold split_comma.
  induction Hall as [|e entries He Hall IH]; [done|].
  destruct entries as [|e' entries].
  - simpl. by rewrite split_go_plain.
  - change (String.concat "," (e :: e' :: entries))
      with (e +:+ String "," (String.concat "," (e' :: entries))).
    rewrite split_go_comma by done. f_equal. by apply IH.
Qed.

Section GuardMore.
Context (lib : Lib).


(** X14: an access token that the caller supplies is taken as it is
    and no identifier is drawn; without one, the token is the next
    identifier of the generator with its dashes removed, so it holds no
    dash, and the next call draws another identifier. *)
Theorem anonymousSignIn_token event w :
  (∀ token, Event.accessToken event = Some token → token ≠ "" →
     anonymousSignIn lib event w = (Return token, w)) ∧
  (truthy (JStr <$> Event.accessToken event) = false →
     ∃ token,
       anonymousSignIn lib event w
       = (Return token, World.with_uuids (S (World.uuids w)) w) ∧
       token = remove_dashes (uuidv4 lib (World.uuids w)) ∧
       "-"%char ∉ String.list_ascii_of_string token).
Proof.
  split.
  - intros token Ht Hne. unfold anonymousSignIn. rewrite Ht. simpl.
    destruct (String.eqb token "") eqn:E; [by apply String.eqb_eq in E|done].
  - intros Hf. eexists. split; [by apply anonymousSignIn_fresh|].
    split; [done|]. intros Hin. by apply remove_dashes_clean in Hin.
Qed.

(** X15: with a non-empty allow-list in the configuration, made of
    entries joined by commas, an origin that is not a localhost origin
    is allowed exactly if it is one of the entries with one trailing
    slash of the entry removed; the answer is the origin itself or the
    empty string.  A localhost origin is always allowed, and so is
    every origin when the configuration has no allow-list. *)
Theorem getAllowedOrigin_listed origin entries w :
  (localhostRegex lib origin = true →
     getAllowedOrigin lib origin w = (Return origin, w)) ∧
  (truthy (World.config w !! "CORS_ALLOW_ORIGIN") = false →
     getAllowedOrigin lib origin w = (Return origin, w)) ∧
  (localhostRegex lib origin = false →
   World.config w !! "CORS_ALLOW_ORIGIN" = Some (JStr (String.concat "," entries)) →
   String.concat "," entries ≠ "" →
   Forall (λ e, ","%char ∉ String.list_ascii_of_string e) entries →
   getAllowedOrigin lib origin w
   = (Return (if bool_decide (origin ∈ strip_slash <$> entries) then origin else ""),
      w)).
Proof.
  unfold getAllowedOrigin. mrun. split; [by intros ->|]. split.
  - intros ->. by destruct (localhostRegex lib origin).
  - intros -> Hc Hne Hall. rewrite Hc. simpl.
    destruct (String.eqb (String.concat "," entries) "") eqn:E;
      [by apply String.eqb_eq in E|]. simpl.
    rewrite split_comma_concat; [by case_bool_decide|by intros ->|done].
Qed.

End GuardMore.

(** ** Passwords, recent comments and the entry point *)

Section EntryMore.
Context (lib : Lib).

(** X16: setting the first password and logging in compose.  When no
    password is stored or loaded, SET_PASSWORD with a password whose
    hash is not empty answers SUCCESS and stores the hash next to the
    other keys of the stored configuration; after the configuration is
    read again, as [fetch] does for the next request, LOGIN with that
    password answers SUCCESS, LOGIN with a password of another hash
    answers PASS_NOT_MATCH, and the requester whose access token is
    the password is the admin. *)
Theorem setPassword_then_login event w password other :
  World.config w !! "ADMIN_PASS" = None →
  Event.password event = Some password →
  md5 lib (Some password) ≠ "" →
  md5 lib other ≠ md5 lib (Some password) →
  let w1 := after (setPassword lib event) w in
  let w2 := after readConfig w1 in
  (setPassword lib event w).1 = Return (Res.of_code (RES_CODE.SUCCESS (RES lib))) ∧
  World.tbl_config w1
  = Some ({[ "ADMIN_PASS" := JStr (md5 lib (Some password)) ]}
          ∪ default ∅ (World.tbl_config w)) ∧
  (login lib (Some password) w2).1
  = Return (Res.of_code (RES_CODE.SUCCESS (RES lib))) ∧
  (login lib other w2).1
  = Return (Res.of_code_message (RES_CODE.PASS_NOT_MATCH (RES lib)) "密码错误") ∧
  is_admin lib (World.with_accessToken password w2) = true.
Proof.
  intros Hnone Hp Hne Hother w1 w2.
  assert (size ({[ "ADMIN_PASS" := JStr (md5 lib (Some password)) ]} : Config) ≠ 0)
    as Hsz by by rewrite map_size_singleton.
  assert (setPassword lib event w
    = (Return (Res.of_code (RES_CODE.SUCCESS (RES lib))),
       after (writeConfig lib
                (Some {[ "ADMIN_PASS" := JStr (md5 lib (Some password)) ]})) w))
    as Hrun.
  { unfold setPassword, after.
    unfold mbind at 1 2, M_bind at 1 2. rewrite isAdmin_run. unfold get.
    rewrite Hnone, Hp. cbn [truthy andb]. rewrite bind_run.
    by rewrite (writeConfig_run lib _ w Hsz). }
  assert (World.config w2 !! "ADMIN_PASS" = Some (JStr (md5 lib (Some password))))
    as Hcfg.
  { unfold w2, w1, after. rewrite Hrun. cbn [snd]. unfold after.
    rewrite (writeConfig_run lib _ w Hsz). unfold readConfig. mrun.
    apply lookup_union_Some_raw. left. apply lookup_singleton_eq. }
  split; [by rewrite Hrun|]. split.
  { unfold w1, after. rewrite Hrun. cbn [snd]. unfold after.
    by rewrite (writeConfig_run lib _ w Hsz). }
  assert (truthy (Some (JStr (md5 lib (Some password)))) = true) as Htr.
  { simpl. apply negb_true_iff, String.eqb_neq. done. }
  clearbody w2. split; [|split].
  - unfold login. mrun. rewrite Hcfg, Htr. simpl.
    by rewrite bool_decide_eq_false_2 by (by intros H; apply H).
  - unfold login. mrun. rewrite Hcfg, Htr. simpl.
    rewrite bool_decide_eq_true_2; [done|]. intros [= H]. by apply Hother.
  - unfold is_admin. simpl. by rewrite Hcfg, bool_decide_eq_true_2.
Qed.

(** X17: a stored password is safe from a requester who is not the
    admin: SET_PASSWORD then answers PASS_EXIST, runs no statement and
    leaves the world, the stored configuration in particular, as it
    was. *)
Theorem setPassword_guarded event w :
  truthy (World.config w !! "ADMIN_PASS") = true →
  is_admin lib w = false →
  setPassword lib event w
  = (Return (Res.of_code_message (RES_CODE.PASS_EXIST (RES lib)) "请先登录再修改密码"),
     w).
Proof.
  intros Ht Hadm. unfold setPassword.
  unfold mbind, M_bind. rewrite isAdmin_run, Hadm. unfold get. by rewrite Ht.
Qed.

(** X18: GET_RECENT_COMMENTS lists no comment, whatever the request
    and the table: the call returns, and its response holds either a
    message and no data, or the empty list; the comment table is as
    before. *)
Theorem getRecentComments_lists_nothing event w :
  ∃ res w',
    getRecentComments lib event w = (Return res, w') ∧
    World.tbl_comment w' = World.tbl_comment w ∧
    (Res.data res = None ∧ is_Some (Res.message res)
     ∨ Res.data res = Some (Recents []) ∧ Event.urls event = Some []).
Proof.
  unfold getRecentComments.
  destruct (Event.urls event) as [[|url urls]|] eqn:Hu.
  - eexists _, _. split; [reflexivity|]. split; [done|]. right. done.
  - destruct (Event.includeReply event) as [b|] eqn:Hr; mrun;
      eexists _, _; (split; [reflexivity|]); (split; [done|]); left;
      (split; [done|by eexists]).
  - eexists _, _. split; [reflexivity|]. split; [done|]. left.
    split; [done|by eexists].
Qed.

(** X19: a request beyond the ceiling of the request guard is answered
    with the code FAIL and the message of the guard, without any
    access to the database: no statement runs, the tables, the loaded
    configuration and the access token of the previous request are as
    before, and only the counter of the IP has grown. *)
Theorem fetch_too_many_requests request w :
  (MAX_REQUEST_TIMES lib
   < num_or (World.requestTimes w !! getIp request) 0 + 1)%Z →
  RES_CODE.FAIL (RES lib) ≠ 0%Z →
  fetch lib request w
  = (Return (Response.mk 200
       (Some (Res.of_code_message (RES_CODE.FAIL (RES lib)) "Too Many Requests"))),
     World.with_requestTimes
       (<[getIp request := (num_or (World.requestTimes w !! getIp request) 0 + 1)%Z]>
          (World.requestTimes w)) w).
Proof.
  intros Hmax Hfail. unfold fetch, fetch_try.
  rewrite bind_run. unfold try_catch. rewrite bind_run, protect_run. simpl.
  assert ((MAX_REQUEST_TIMES lib
           <? num_or (World.requestTimes w !! getIp request) 0 + 1)%Z = true)
    as -> by by apply Z.ltb_lt.
  simpl. unfold mret, M_ret. simpl.
  by assert ((RES_CODE.FAIL (RES lib) =? 0)%Z = false) as -> by by apply Z.eqb_neq.
Qed.

(** X20: a request with a body stream, whose JSON is an object or
    which is no JSON at all, is always answered: [fetch] returns a
    response with status 204 and no body, or status 200 and a JSON
    body, whatever the handlers and the imported functions do, a
    thrown error included. *)
Theorem fetch_answers request w :
  Request.body request = true →
  ∃ response w',
    fetch lib request w = (Return response, w') ∧
    (Response.status response = 204%Z ∧ Response.body response = None
     ∨ Response.status response = 200%Z ∧ is_Some (Response.body response)).
Proof.
  intros Hb. unfold fetch. rewrite bind_run.
  destruct (fetch_try lib _ request w) as [[[res|]|e] w1] eqn:E.
  - rewrite Hb. destruct (negb (truthy (JNum <$> Res.code res)));
      eexists _, _; (split; [reflexivity|]); right; (split; [done|by eexists]).
  - eexists _, _. split; [reflexivity|]. left. done.
  - exfalso. unfold fetch_try, try_catch in E.
    match type of E with
    | (let (_, _) := ?t in _) = _ => destruct t as [[?|?] ?]; discriminate
    end.
Qed.

End EntryMore.

(** ** Storing a submission and the spam check *)

Lemma head_filter_snoc_fresh id (row : Comment.t) tbl :
  Comment._id row = id →
  id ∉ Comment._id <$> tbl →
  head (filter (λ c, Comment._id c = id) (tbl ++ [row])) = Some row.
Proof.
  intros Hid Hfresh. rewrite filter_app.
  rewrite (filter_nil_elem _ tbl).
  - simpl. rewrite filter_cons, decide_True by done. done.
  - intros x Hx Hxid. apply Hfresh. rewrite <- Hxid. by apply list_elem_of_fmap_2.
Qed.

Section StoreMore.
Context (lib : Lib).

(** A [save] whose five required columns are given and whose
    identifier is new. *)
Lemma save_run data w url href comment created updated :
  CommentDo.url data = Some url →
  CommentDo.href data = Some href →
  CommentDo.comment data = Some comment →
  CommentDo.created data = Some created →
  CommentDo.updated data = Some updated →
  let id := remove_dashes (uuidv4 lib (World.uuids w)) in
  id ∉ Comment._id <$> World.tbl_comment w →
  save lib data w
  = (Return (CommentDo.with_id id data),
     World.with_tbl_comment
       (World.tbl_comment w
        ++ [row_of id url href comment created updated (CommentDo.with_id id data)])
       (World.with_uuids (S (World.uuids w)) w)).
Proof.
  intros Hu Hh Hc Hcr Hup id Hfresh. unfold save, insert_comment.
  destruct w as [tbl cfgrow rc sc ex cfg tok rt nw uu]. mrun.
  rewrite Hu, Hh, Hc, Hcr, Hup. mrun. simpl in *. fold id.
  destruct (decide (id ∈ _)) as [Hin|Hin]; [|done].
  by destruct Hfresh.
Qed.

(** X21: storing and looking up compose.  [save] of a comment object
    with [url], [href], [comment], [created] and [updated], under an
    identifier that no row has, returns the object with that
    identifier; the lookup by identifier then finds the new row, which
    holds the given columns and the defaults for the missing ones (not
    spam, not pinned, no likes), and the rows stored before are as
    they were, in their places. *)
Theorem save_then_find data w url href comment created updated :
  CommentDo.url data = Some url →
  CommentDo.href data = Some href →
  CommentDo.comment data = Some comment →
  CommentDo.created data = Some created →
  CommentDo.updated data = Some updated →
  let id := remove_dashes (uuidv4 lib (World.uuids w)) in
  id ∉ Comment._id <$> World.tbl_comment w →
  let w1 := after (save lib data) w in
  ∃ row,
    (save lib data w).1 = Return (CommentDo.with_id id data) ∧
    comment_by_id id w1 = Some row ∧
    World.tbl_comment w1 = World.tbl_comment w ++ [row] ∧
    Comment._id row = id ∧ Comment.url row = url ∧ Comment.comment row = comment ∧
    Comment.created row = created ∧
    Comment.uid row = default EmptyString (CommentDo.uid data) ∧
    Comment.rid row = default EmptyString (CommentDo.rid data) ∧
    Comment.isSpam row = default 0%Z (CommentDo.isSpam data) ∧
    Comment.top row = default 0%Z (CommentDo.top data) ∧
    Comment.like row = default [] (CommentDo.like data).
Proof.
  intros Hu Hh Hc Hcr Hup id Hfresh w1. unfold w1, after.
  rewrite (save_run data w url href comment created updated) by done.
  fold id. eexists. split; [done|]. split; [|done].
  unfold comment_by_id. simpl. by apply head_filter_snoc_fresh.
Qed.

(** X22: [save] stores nothing for a comment object that lacks one of
    [url], [href], [comment], [created] and [updated]: binding the
    missing value throws, an [Error] with the message of D1's type
    error, the table is as before, and the identifier drawn for the
    comment is used up. *)
Theorem save_incomplete data w :
  CommentDo.url data = None ∨ CommentDo.href data = None
  ∨ CommentDo.comment data = None ∨ CommentDo.created data = None
  ∨ CommentDo.updated data = None →
  save lib data w
  = (Throw (Error "D1_TYPE_ERROR: Type 'undefined' not supported for value 'undefined'"),
     World.with_uuids (S (World.uuids w)) w).
Proof.
  intros H. unfold save.
  destruct w as [tbl cfgrow rc sc ex cfg tok rt nw uu]. mrun.
  destruct (CommentDo.url data); [|done].
  destruct (CommentDo.href data); [|done].
  destruct (CommentDo.comment data); [|done].
  destruct (CommentDo.created data); [|done].
  destruct (CommentDo.updated data); [|done].
  destruct H as [H|[H|[H|[H|H]]]]; discriminate.
Qed.

(** X23: every stored submission counts against the rate limit.  After
    [save] of a comment created within the last ten minutes, the
    number of submissions in the window has grown by one, for the IP
    of the comment and over all IPs. *)
Theorem save_counts_for_limiter data w request ip url href comment created updated :
  CommentDo.url data = Some url →
  CommentDo.href data = Some href →
  CommentDo.comment data = Some comment →
  CommentDo.created data = Some created →
  CommentDo.updated data = Some updated →
  remove_dashes (uuidv4 lib (World.uuids w)) ∉ Comment._id <$> World.tbl_comment w →
  CommentDo.ip data = Some ip →
  getIp request = Some ip →
  (World.now w - 600000 < created)%Z →
  let w1 := after (save lib data) w in
  length (priors_by_ip request w1) = S (length (priors_by_ip request w)) ∧
  length (priors w1) = S (length (priors w)).
Proof.
  intros Hu Hh Hc Hcr Hup Hfresh Hip Hreq Hnew w1. unfold w1, after.
  rewrite (save_run data w url href comment created updated) by done.
  unfold priors_by_ip, priors, where_since_ip. simpl.
  rewrite !filter_app, !length_app, !filter_cons, !filter_nil.
  rewrite decide_True by (simpl; rewrite Hip, Hreq; done).
  rewrite decide_True by done. simpl. lia.
Qed.

(** The spam check's update, for a comment object with an
    identifier. *)
Lemma saveSpamCheckResult_run comment isSpam w id :
  CommentDo._id comment = Some id →
  saveSpamCheckResult comment isSpam w
  = (Return (CommentDo.with_isSpam (if isSpam then 1%Z else 0%Z) comment),
     World.with_tbl_comment
       (update_where_id id (set_isSpam (if isSpam then 1%Z else 0%Z) (World.now w))
          (World.tbl_comment w)) w).
Proof.
  intros Hid. unfold saveSpamCheckResult. rewrite Hid.
  destruct w as [tbl cfgrow rc sc ex cfg tok rt nw uu]. by mrun.
Qed.

(** X24: a comment that the spam check flags disappears for the other
    visitors.  After [saveSpamCheckResult] with [true], the rows under
    the identifier of the comment are marked spam and carry the time
    of the check as [updated], every other row is as before, and a
    COMMENT_GET by a requester who is neither the admin nor the author
    returns no row with that identifier. *)
Theorem saveSpamCheckResult_hides comment w id event u :
  CommentDo._id comment = Some id →
  is_admin lib w = false →
  (∀ c, c ∈ World.tbl_comment w → Comment._id c = id →
        Comment.uid c ≠ World.accessToken w) →
  validate lib event ["url"] = None →
  Event.url event = Some u →
  let w1 := after (saveSpamCheckResult comment true) w in
  (∀ c, c ∈ World.tbl_comment w1 → Comment._id c = id →
        Comment.isSpam c = 1%Z ∧ Comment.updated c = World.now w) ∧
  filter (λ c, Comment._id c ≠ id) (World.tbl_comment w1)
  = filter (λ c, Comment._id c ≠ id) (World.tbl_comment w) ∧
  (commentGet lib event w1).1 = Return (response lib u event w1) ∧
  ∀ c, c ∈ pinned lib u event w1 ++ page lib u event w1 ++ replies lib u event w1 →
       Comment._id c ≠ id.
Proof.
  intros Hid Hadm Hauthor Hv Hu w1. unfold w1, after.
  rewrite (saveSpamCheckResult_run comment true w id Hid). cbn [snd].
  set (w' := World.with_tbl_comment _ w).
  assert (∀ c, c ∈ World.tbl_comment w' → Comment._id c = id →
    Comment.isSpam c = 1%Z ∧ Comment.updated c = World.now w
    ∧ Comment.uid c ≠ World.accessToken w) as Hrows.
  { intros c Hc Hcid. unfold w', update_where_id in Hc. simpl in Hc.
    apply list_elem_of_fmap in Hc as (c0 & -> & Hc0).
    destruct (decide (Comment._id c0 = id)) as [H0|H0]; [|done].
    simpl. split; [done|]. split; [done|]. by apply Hauthor. }
  split; [intros c Hc Hcid; by destruct (Hrows c Hc Hcid) as (? & ? & ?)|].
  split; [by apply filter_others_update|].
  split; [by rewrite (commentGet_run lib w' event u Hv Hu)|].
  assert (is_admin lib w' = false) as Hadm' by done.
  assert (∀ c, c ∈ World.tbl_comment w' →
    shown (spam_arg (is_admin lib w')) (World.accessToken w') c →
    Comment._id c ≠ id) as Hshown.
  { intros c Hc Hs Hcid. destruct (Hrows c Hc Hcid) as (Hspam & _ & Hne).
    rewrite Hadm' in Hs. unfold shown, spam_arg in Hs. simpl in Hs.
    destruct Hs as [Hs|Hs]; [by apply Hs|by apply Hne]. }
  intros c. rewrite !elem_of_app. intros [Hc|[Hc|Hc]].
  - apply pinned_elem in Hc as [(_ & Hs & _) Hc]. by apply Hshown.
  - apply page_elem, matching_elem in Hc as [(_ & Hs & _) Hc]. by apply Hshown.
  - apply replies_elem in Hc as [(_ & Hs & _) Hc]. by apply Hshown.
Qed.

End StoreMore.

(** ** The page-view counter and the comment counts *)

Section CountersMore.
Context (lib : Lib).

Lemma counterGet_run event title now counter u :
  validate lib event ["url"] = None →
  Event.url event = Some u →
  counterGet lib event (Some title) now counter
  = (Hits.mk None (Some (default 0%Z (Counter.time <$> counter !! u) + 1)%Z),
     incCounter u title now counter).
Proof.
  intros Hv Hu. unfold counterGet, incCounter. rewrite Hv, Hu.
  destruct (counter !! u) as [c|] eqn:E; simpl; by rewrite lookup_insert_eq.
Qed.

Lemma incCounter_others u title now counter u' :
  u' ≠ u → incCounter u title now counter !! u' = counter !! u'.
Proof.
  intros Hne. unfold incCounter.
  destruct (counter !! u); by rewrite lookup_insert_ne.
Qed.

Lemma incCounter_time u title now counter :
  default 0%Z (Counter.time <$> incCounter u title now counter !! u)
  = (default 0%Z (Counter.time <$> counter !! u) + 1)%Z.
Proof.
  unfold incCounter.
  destruct (counter !! u) as [c|] eqn:E; by rewrite lookup_insert_eq.
Qed.

(** X25: the page-view counter counts every view of a page.  After
    [n] COUNTER_GET requests for one url, each with a title, the next
    one answers with the hits stored at the start plus [n + 1] (a page
    not counted before starts at 0) and no message; the counters of
    the other pages are as before. *)
Theorem counterGet_counts event titles now counter u title now' :
  validate lib event ["url"] = None →
  Event.url event = Some u →
  Forall is_Some titles →
  let counter' := visits lib event titles now counter in
  (counterGet lib event (Some title) now' counter').1
  = Hits.mk None
      (Some (default 0%Z (Counter.time <$> counter !! u)
             + Z.of_nat (length titles) + 1)%Z) ∧
  ∀ u', u' ≠ u → counter' !! u' = counter !! u'.
Proof.
  intros Hv Hu Hall counter'.
  assert (default 0%Z (Counter.time <$> counter' !! u)
          = (default 0%Z (Counter.time <$> counter !! u) + Z.of_nat (length titles))%Z
          ∧ ∀ u', u' ≠ u → counter' !! u' = counter !! u') as [Ht Ho].
  { unfold counter'. clear counter'. revert now counter.
    induction Hall as [|t titles [t' ->] Hall IH]; intros now counter.
    - simpl. split; [lia|done].
    - cbn [visits]. rewrite (counterGet_run event t' now counter u Hv Hu). cbn [snd].
      destruct (IH (now + 1)%Z (incCounter u t' now counter)) as [IH1 IH2].
      split.
      + rewrite IH1, incCounter_time. rewrite length_cons. lia.
      + intros u' Hne. rewrite IH2 by done. by apply incCounter_others. }
  split; [|done].
  rewrite (counterGet_run event title now' counter' u Hv Hu). simpl.
  by rewrite Ht.
Qed.

(** X26: COUNTER_GET counts nothing without a title: for a request
    that passes validation but has no [title], binding the missing
    value throws, so the response holds the message of that error
    and no hits, and the counter table is as before.  A request that
    fails validation is answered with the message of the validation
    error, and the table is as before as well. *)
Theorem counterGet_needs_title event now counter :
  (validate lib event ["url"] = None →
   counterGet lib event None now counter
   = (Hits.mk
        (Some "D1_TYPE_ERROR: Type 'undefined' not supported for value 'undefined'")
        None, counter)) ∧
  (∀ m title, validate lib event ["url"] = Some m →
   counterGet lib event title now counter = (Hits.mk (Some m) None, counter)).
Proof.
  split.
  - intros Hv. unfold counterGet. rewrite Hv. by destruct (Event.url event).
  - intros m title Hv. unfold counterGet. by rewrite Hv.
Qed.

Lemma for_each_count (f : string → M (string * Z)) (g : string → Z) urls w :
  (∀ url, f url w = (Return (url, g url), w)) →
  for_each f urls w = (Return ((λ url, (url, g url)) <$> urls), w).
Proof.
  intros Hf. induction urls as [|url urls IH]; [done|].
  cbn [for_each]. rewrite bind_run, Hf, bind_run, IH. done.
Qed.

(** X27: GET_COMMENTS_COUNT with [urls] and [includeReply] answers with
    one entry per url, in the order of the request, each with the
    number of comments of that page that are not spam, replies left
    out unless [includeReply] is set; the world is as before.  The
    number with replies is never below the number without, and the
    number without replies is never above the [count] that a
    COMMENT_GET for the page reports. *)
Theorem getCommentsCount_counts event w urls includeReply :
  validate lib event ["urls"] = None →
  Event.urls event = Some urls →
  Event.includeReply event = Some includeReply →
  getCommentsCount lib event w
  = (Return (Counts.mk None
       (Some ((λ url, (url, count_by_url includeReply w url)) <$> urls))), w) ∧
  (∀ url, count_by_url false w url ≤ count_by_url true w url)%Z ∧
  (∀ url, count_by_url false w url
          ≤ Z.of_nat (length (select (count_query lib url w) (World.tbl_comment w))))%Z.
Proof.
  intros Hv Hu Hr. split; [|split].
  - unfold getCommentsCount, try_catch, check. rewrite bind_run, Hv, Hu.
    unfold mret at 1, M_ret at 1. cbn iota beta.
    rewrite bind_run.
    rewrite (for_each_count _ (count_by_url includeReply w)); [done|].
    intros url. rewrite Hr. done.
  - intros url. unfold count_by_url. apply inj_le.
    etrans; [|apply (filter_two_length (where_countByUrl url false) (λ _, False))].
    + lia.
    + unfold where_countByUrl. tauto.
    + done.
    + done.
  - intros url. unfold count_by_url, count_query. simpl. apply inj_le.
    etrans; [|apply (filter_two_length (where_countByUrl url false) (λ _, False))].
    + lia.
    + unfold where_countByUrl, where_commentCount, shown, spam_arg.
      intros c (? & Hs & [?|?]); [done|]. split; [done|]. split; [done|].
      left. rewrite Hs. by destruct (is_admin lib w).
    + done.
    + done.
Qed.

(** X28: GET_COMMENTS_COUNT needs [includeReply]: for a request with
    at least one url and no [includeReply], binding the missing value
    throws, and the response holds the message of that error and no
    counts. *)
Theorem getCommentsCount_needs_includeReply event w url urls :
  validate lib event ["urls"] = None →
  Event.urls event = Some (url :: urls) →
  Event.includeReply event = None →
  getCommentsCount lib event w
  = (Return (Counts.mk
       (Some "D1_TYPE_ERROR: Type 'undefined' not supported for value 'undefined'")
       None), w).
Proof.
  intros Hv Hu Hr.
  unfold getCommentsCount, try_catch, check. rewrite bind_run, Hv, Hu.
  unfold mret at 1, M_ret at 1. cbn iota beta.
  rewrite bind_run. cbn [for_each]. rewrite bind_run, Hr. done.
Qed.

End CountersMore.

(** ** The admin's listing and export *)

Section AdminReadMore.
Context (lib : Lib) (LIKE : string → string → bool).

(** X29: a requester who is not the admin gets no row from the admin
    listing or from the export: COMMENT_GET_FOR_ADMIN and
    COMMENT_EXPORT_FOR_ADMIN answer NEED_LOGIN with its message and no
    data, and leave the world as it was. *)
Theorem admin_reads_need_login event listing w :
  is_admin lib w = false →
  commentGetForAdmin lib LIKE event listing w = (Return (need_login lib), w) ∧
  commentExportForAdmin lib w = (Return (need_login lib), w) ∧
  Res.data (need_login lib) = None.
Proof.
  intros Hadm. unfold commentGetForAdmin, commentExportForAdmin.
  unfold mbind, M_bind. rewrite !isAdmin_run, Hadm. done.
Qed.

(** The admin's listing for a request that passes validation. *)
Lemma commentGetForAdmin_run event listing w :
  is_admin lib w = true →
  validate lib event ["per"; "page"] = None →
  commentGetForAdmin lib LIKE event listing w
  = (Return (Res.mk (Some (RES_CODE.SUCCESS (RES lib))) None
       (Some (Rows (commentForAdminRows LIKE (type_arg (Listing.type listing))
          (keyword_arg (Listing.keyword listing)) (Listing.per listing)
          (Listing.per listing * (Listing.page listing - 1)) (World.tbl_comment w))))
       None
       (Some (Z.of_nat (length (filter
          (where_forAdmin LIKE (type_arg (Listing.type listing))
             (keyword_arg (Listing.keyword listing))) (World.tbl_comment w)))))
       None None), w).
Proof.
  intros Hadm Hv. unfold commentGetForAdmin.
  unfold mbind at 1, M_bind at 1. rewrite isAdmin_run, Hadm.
  unfold check. rewrite Hv. done.
Qed.

(** X30: the admin's listing pages by offset without gaps or overlaps.
    For the admin and a positive [per], the response for page
    [page >= 1] holds the rows [per * (page - 1)] up to [per * page]
    of the rows that match the type and the keyword, newest first, so
    the rows of two pages in a row are [2 * per] rows in a row of that
    list; [count] is the number of matching rows whatever the page.
    With type VISIBLE no row of the response is marked spam (flag 1),
    with type HIDDEN none has the flag 0. *)
Theorem commentGetForAdmin_pages event listing w :
  is_admin lib w = true →
  validate lib event ["per"; "page"] = None →
  (0 < Listing.per listing)%Z →
  (1 ≤ Listing.page listing)%Z →
  let spam := type_arg (Listing.type listing) in
  let matches := order_by_created_desc
    (filter (where_forAdmin LIKE spam (keyword_arg (Listing.keyword listing)))
       (World.tbl_comment w)) in
  let per := Z.to_nat (Listing.per listing) in
  let page := Z.to_nat (Listing.page listing) in
  let next := Listing.mk (Listing.per listing) (Listing.page listing + 1)
                (Listing.type listing) (Listing.keyword listing) in
  ∃ rows rows',
    commentGetForAdmin lib LIKE event listing w
    = (Return (Res.mk (Some (RES_CODE.SUCCESS (RES lib))) None (Some (Rows rows))
                 None (Some (Z.of_nat (length matches))) None None), w) ∧
    commentGetForAdmin lib LIKE event next w
    = (Return (Res.mk (Some (RES_CODE.SUCCESS (RES lib))) None (Some (Rows rows'))
                 None (Some (Z.of_nat (length matches))) None None), w) ∧
    rows = take per (drop (per * (page - 1)) matches) ∧
    rows ++ rows' = take (2 * per) (drop (per * (page - 1)) matches) ∧
    (∀ c, c ∈ rows → c ∈ World.tbl_comment w ∧ Comment.isSpam c ≠ spam) ∧
    (Listing.type listing = Some "VISIBLE" → spam = 1%Z) ∧
    (Listing.type listing = Some "HIDDEN" → spam = 0%Z).
Proof.
  intros Hadm Hv Hper Hpage spam matches per page next.
  rewrite (commentGetForAdmin_run event listing w Hadm Hv).
  rewrite (commentGetForAdmin_run event next w Hadm Hv).
  unfold next. simpl. fold spam. unfold commentForAdminRows, sql_limit, sql_offset.
  fold matches.
  destruct (Listing.per listing <? 0)%Z eqn:E; [lia|]. fold per.
  replace (Z.to_nat (Listing.per listing * (Listing.page listing - 1)))
    with (per * (page - 1)) by (unfold per, page; nia).
  replace (Z.to_nat (Listing.per listing * (Listing.page listing + 1 - 1)))
    with (per * (page - 1) + per) by (unfold per, page; nia).
  eexists _, _.
  replace (length matches) with (length (filter
    (where_forAdmin LIKE spam (keyword_arg (Listing.keyword listing)))
    (World.tbl_comment w))) by (unfold matches; by rewrite order_by_created_desc_length).
  split; [reflexivity|]. split; [reflexivity|]. split; [done|]. split.
  - rewrite <- drop_drop, take_take_drop. f_equal. lia.
  - split; [|split].
    + intros c Hc. apply subseteq_take, subseteq_drop in Hc.
      unfold matches in Hc.
      rewrite order_by_created_desc_elem, list_elem_of_filter in Hc.
      destruct Hc as [[Hs _] Hc]. done.
    + intros Ht. unfold spam, type_arg. by rewrite Ht.
    + intros Ht. unfold spam, type_arg. by rewrite Ht.
Qed.

End AdminReadMore.

(** ** The further properties on sample requests *)

Lemma commentGet_invalid_witness :
  commentGet sample_lib Event.empty sample_world
  = (Return (Res.mk None (Some "missing parameter") (Some (Rows [])) None None
               None None), sample_world).
Proof.
  apply (commentGet_invalid sample_lib Event.empty sample_world
           "missing parameter" eq_refl).
Defined.

Lemma commentGet_negative_page_size_witness :
  ∃ res w',
    commentGet sample_lib (get_event "/post" None) negative_world = (Return res, w') ∧
    Res.more res = Some true.
Proof.
  destruct (commentGet_negative_page_size sample_lib (get_event "/post" None)
              negative_world "/post" eq_refl eq_refl eq_refl)
    as (res & w' & Hrun & Hmore & _).
  exists res, w'. split; [exact Hrun | exact Hmore].
Defined.

Lemma commentGet_cursor_no_overlap_witness :
  let w1 := after (commentGet sample_lib (get_event "/post" None)) sample_world in
  (commentGet sample_lib (get_event "/post" (Some 400%Z)) w1).1
  = Return (response sample_lib "/post" (get_event "/post" (Some 400%Z)) w1) ∧
  ∀ c1 c2,
    c1 ∈ page sample_lib "/post" (get_event "/post" None) sample_world →
    c2 ∈ page sample_lib "/post" (get_event "/post" (Some 400%Z)) w1 →
    (Comment.created c2 < Comment.created c1)%Z.
Proof.
  destruct (commentGet_cursor_no_overlap sample_lib sample_world
              (get_event "/post" None) (get_event "/post" (Some 400%Z)) "/post"
              (row "c4" "dave" "/post" "" 0 400 0 [] "10.0.0.1")
              eq_refl eq_refl eq_refl eq_refl eq_refl eq_refl eq_refl)
    as (_ & H).
  exact H.
Defined.

Lemma commentGet_cursor_contiguous_witness :
  let w1 := after (commentGet sample_lib (get_event "/post" None)) sample_world in
  page sample_lib "/post" (get_event "/post" None) sample_world
  ++ page sample_lib "/post" (get_event "/post" (Some 400%Z)) w1
  = [ row "c4" "dave" "/post" "" 0 400 0 [] "10.0.0.1";
      row "c1" "alice" "/post" "" 0 100 0 ["bob"] "10.0.0.1" ].
Proof.
  assert (NoDup (Comment.created <$> World.tbl_comment sample_world)) as Hnd.
  { apply (bool_decide_unpack _). by vm_compute. }
  destruct (commentGet_cursor_contiguous sample_lib sample_world
              (get_event "/post" None) (get_event "/post" (Some 400%Z)) "/post"
              (row "c4" "dave" "/post" "" 0 400 0 [] "10.0.0.1")
              eq_refl eq_refl eq_refl eq_refl eq_refl Hnd eq_refl eq_refl)
    as (_ & _ & H).
  exact H.
Defined.

Lemma commentGet_count_covers_witness :
  ∃ res w' n,
    commentGet sample_lib (get_event "/post" None) sample_world = (Return res, w') ∧
    Res.count res = Some n ∧
    (2 ≤ n)%Z.
Proof.
  destruct (commentGet_count_covers sample_lib sample_world (get_event "/post" None)
              "/post" eq_refl eq_refl)
    as (res & w' & n & Hrun & Hcount & Hle).
  exists res, w', n. split; [exact Hrun|]. split; [exact Hcount | exact Hle].
Defined.

Lemma like_missing_witness :
  World.tbl_comment (after (like sample_lib "nobody" "bob") sample_world)
  = sample_rows.
Proof.
  unfold after.
  rewrite (like_missing sample_lib "nobody" "bob" sample_world eq_refl).
  reflexivity.
Defined.

Lemma like_others_kept_witness :
  ∃ c1,
    comment_by_id "c1" (after (like sample_lib "c1" "eve") sample_world) = Some c1 ∧
    ("bob" ∈ Comment.like c1 ↔ "bob" ∈ ["bob"]).
Proof.
  destruct (like_others_kept sample_lib "c1" "eve" sample_world
              (row "c1" "alice" "/post" "" 0 100 0 ["bob"] "10.0.0.1") eq_refl)
    as (c1 & Hc1 & Hothers & _).
  exists c1. split; [exact Hc1|]. apply Hothers. discriminate.
Defined.

Lemma commentDeleteForAdmin_removes_witness :
  World.tbl_comment
    (after (commentDeleteForAdmin sample_lib
              (admin_event "COMMENT_DELETE_FOR_ADMIN" "c1")) admin_world)
  = filter (λ c, Comment._id c ≠ "c1") sample_rows.
Proof.
  destruct (commentDeleteForAdmin_removes sample_lib
              (admin_event "COMMENT_DELETE_FOR_ADMIN" "c1") admin_world "c1"
              eq_refl eq_refl eq_refl)
    as (_ & H & _).
  exact H.
Defined.


Lemma limitFilter_per_ip_first_witness :
  (limitFilter sample_lib (request_from "10.0.0.9" Event.empty)
     (world_of [row "s1" "mallory" "/post" "" 0 700000 0 [] "10.0.0.9"]
        {[ "LIMIT_PER_MINUTE" := JNum (-1) ]} "mallory" 1000000)).1
  = Throw (Error "发言频率过高").
Proof.
  rewrite (limitFilter_per_ip_first sample_lib (request_from "10.0.0.9" Event.empty)
             (world_of [row "s1" "mallory" "/post" "" 0 700000 0 [] "10.0.0.9"]
                {[ "LIMIT_PER_MINUTE" := JNum (-1) ]} "mallory" 1000000)).
  - reflexivity.
  - by vm_compute.
  - right. by vm_compute.
Defined.

Lemma commentSubmit_limited_witness :
  (commentSubmit sample_lib (get_event "/post" None)
     (request_from "10.0.0.9" (get_event "/post" None))
     (world_of [row "s1" "mallory" "/post" "" 0 700000 0 [] "10.0.0.9"]
        {[ "LIMIT_PER_MINUTE" := JNum (-1) ]} "mallory" 1000000)).1
  = Throw (Error "发言频率过高").
Proof.
  assert (limit_outcome sample_lib (request_from "10.0.0.9" (get_event "/post" None))
            (world_of [row "s1" "mallory" "/post" "" 0 700000 0 [] "10.0.0.9"]
               {[ "LIMIT_PER_MINUTE" := JNum (-1) ]} "mallory" 1000000)
          = Throw (Error "发言频率过高")) as He by by vm_compute.
  rewrite (commentSubmit_limited sample_lib (get_event "/post" None)
             (request_from "10.0.0.9" (get_event "/post" None))
             (world_of [row "s1" "mallory" "/post" "" 0 700000 0 [] "10.0.0.9"]
                {[ "LIMIT_PER_MINUTE" := JNum (-1) ]} "mallory" 1000000)
             (Error "发言频率过高") eq_refl He).
  reflexivity.
Defined.


Lemma setPassword_then_login_witness :
  let w0 := world_of sample_rows ∅ "eve" 1000 in
  let w2 := after readConfig (after (setPassword sample_lib (password_event "root")) w0) in
  (login sample_lib (Some "root") w2).1
  = Return (Res.of_code (RES_CODE.SUCCESS (RES sample_lib))).
Proof.
  assert (md5 sample_lib (Some "root") ≠ "") as Hne by discriminate.
  assert (md5 sample_lib (Some "guess") ≠ md5 sample_lib (Some "root")) as Hother
    by discriminate.
  assert (World.config (world_of sample_rows ∅ "eve" 1000) !! "ADMIN_PASS" = None)
    as Hnone by done.
  destruct (setPassword_then_login sample_lib (password_event "root")
              (world_of sample_rows ∅ "eve" 1000) "root" (Some "guess")
              Hnone eq_refl Hne Hother)
    as (_ & _ & H & _).
  exact H.
Defined.

Lemma setPassword_guarded_witness :
  setPassword sample_lib (password_event "mine") sample_world
  = (Return (Res.of_code_message (RES_CODE.PASS_EXIST (RES sample_lib))
               "请先登录再修改密码"), sample_world).
Proof.
  apply (setPassword_guarded sample_lib (password_event "mine") sample_world
           eq_refl eq_refl).
Defined.

Lemma fetch_too_many_requests_witness :
  (fetch sample_lib (request_from "10.0.0.7" (get_event "/post" None)) busy_world).1
  = Return (Response.mk 200
      (Some (Res.of_code_message (RES_CODE.FAIL (RES sample_lib)) "Too Many Requests"))).
Proof.
  assert (RES_CODE.FAIL (RES sample_lib) ≠ 0%Z) as Hfail by discriminate.
  rewrite (fetch_too_many_requests sample_lib
             (request_from "10.0.0.7" (get_event "/post" None)) busy_world
             eq_refl Hfail).
  reflexivity.
Defined.

Lemma fetch_answers_witness :
  ∃ response w',
    fetch sample_lib (request_from "10.0.0.7" (get_event "/post" None)) busy_world
    = (Return response, w').
Proof.
  destruct (fetch_answers sample_lib
              (request_from "10.0.0.7" (get_event "/post" None)) busy_world eq_refl)
    as (response & w' & Hrun & _).
  exists response, w'. exact Hrun.
Defined.

Lemma save_then_find_witness :
  ∃ row,
    comment_by_id "4f1a" (after (save sample_lib sample_do) sample_world) = Some row ∧
    Comment.isSpam row = 0%Z.
Proof.
  assert (remove_dashes (uuidv4 sample_lib (World.uuids sample_world))
          ∉ Comment._id <$> World.tbl_comment sample_world) as Hfresh.
  { apply (bool_decide_unpack _). by vm_compute. }
  destruct (save_then_find sample_lib sample_do sample_world "/post" "/post" "hello"
              900 900 eq_refl eq_refl eq_refl eq_refl eq_refl Hfresh)
    as (row & _ & Hfind & _ & _ & _ & _ & _ & _ & _ & Hspam & _).
  exists row. split; [exact Hfind | exact Hspam].
Defined.


Lemma save_incomplete_witness :
  World.tbl_comment (after (save sample_lib bare_do) sample_world) = sample_rows.
Proof.
  unfold after.
  rewrite (save_incomplete sample_lib bare_do sample_world);
    [reflexivity | right; left; reflexivity ].
Defined.

Lemma save_counts_for_limiter_witness :
  length (priors_by_ip (request_from "10.0.0.1" Event.empty)
            (after (save sample_lib sample_do) sample_world))
  = S (length (priors_by_ip (request_from "10.0.0.1" Event.empty) sample_world)).
Proof.
  assert (remove_dashes (uuidv4 sample_lib (World.uuids sample_world))
          ∉ Comment._id <$> World.tbl_comment sample_world) as Hfresh.
  { apply (bool_decide_unpack _). by vm_compute. }
  destruct (save_counts_for_limiter sample_lib sample_do sample_world
              (request_from "10.0.0.1" Event.empty) "10.0.0.1" "/post" "/post"
              "hello" 900 900 eq_refl eq_refl eq_refl eq_refl eq_refl Hfresh
              eq_refl eq_refl eq_refl)
    as (H & _).
  exact H.
Defined.

Lemma saveSpamCheckResult_hides_witness :
  let w1 := after (saveSpamCheckResult stored_do true) sample_world in
  (commentGet sample_lib (get_event "/post" None) w1).1
  = Return (response sample_lib "/post" (get_event "/post" None) w1) ∧
  ∀ c, c ∈ pinned sample_lib "/post" (get_event "/post" None) w1
           ++ page sample_lib "/post" (get_event "/post" None) w1
           ++ replies sample_lib "/post" (get_event "/post" None) w1 →
       Comment._id c ≠ "c4".
Proof.
  assert (∀ c, c ∈ World.tbl_comment sample_world → Comment._id c = "c4" →
               Comment.uid c ≠ World.accessToken sample_world) as Hauthor.
  { intros c Hc _. apply (bool_decide_unpack _).
    revert c Hc. apply Forall_forall. by repeat constructor. }
  destruct (saveSpamCheckResult_hides sample_lib stored_do sample_world "c4"
              (get_event "/post" None) "/post" eq_refl eq_refl Hauthor
              eq_refl eq_refl)
    as (_ & _ & H).
  exact H.
Defined.

Lemma counterGet_counts_witness :
  (counterGet sample_lib (counter_event "/post") (Some "Post") 30
     (visits sample_lib (counter_event "/post") [Some "Post"; Some "A post"] 10 ∅)).1
  = Hits.mk None (Some 3%Z).
Proof.
  assert (Forall is_Some [Some "Post"; Some "A post"]) as Htitles
    by (repeat constructor; by eexists).
  destruct (counterGet_counts sample_lib (counter_event "/post")
              [Some "Post"; Some "A post"] 10 ∅ "/post" "Post" 30
              eq_refl eq_refl Htitles)
    as (H & _).
  exact H.
Defined.

Lemma getCommentsCount_counts_witness :
  getCommentsCount sample_lib (counts_event ["/post"; "/none"] (Some true)) sample_world
  = (Return (Counts.mk None (Some [("/post", 4%Z); ("/none", 0%Z)])), sample_world).
Proof.
  destruct (getCommentsCount_counts sample_lib
              (counts_event ["/post"; "/none"] (Some true)) sample_world
              ["/post"; "/none"] true eq_refl eq_refl eq_refl)
    as (H & _).
  exact H.
Defined.

Lemma getCommentsCount_needs_includeReply_witness :
  getCommentsCount sample_lib (counts_event ["/post"] None) sample_world
  = (Return (Counts.mk
       (Some "D1_TYPE_ERROR: Type 'undefined' not supported for value 'undefined'")
       None), sample_world).
Proof.
  apply (getCommentsCount_needs_includeReply sample_lib (counts_event ["/post"] None)
           sample_world "/post" [] eq_refl eq_refl eq_refl).
Defined.

Lemma admin_reads_need_login_witness :
  commentExportForAdmin sample_lib sample_world
  = (Return (need_login sample_lib), sample_world).
Proof.
  destruct (admin_reads_need_login sample_lib sample_like Event.empty sample_listing
              sample_world eq_refl)
    as (_ & H & _).
  exact H.
Defined.

Lemma commentGetForAdmin_pages_witness :
  ∃ rows rows',
    (commentGetForAdmin sample_lib sample_like Event.empty sample_listing
       admin_world).1
    = Return (Res.mk (Some 0%Z) None (Some (Rows rows)) None (Some 4%Z) None None) ∧
    rows ++ rows'
    = [ row "r1" "bob" "/post" "c1" 0 500 0 [] "10.0.0.2";
        row "c4" "dave" "/post" "" 0 400 0 [] "10.0.0.1";
        row "c3" "carol" "/post" "" 0 300 1 [] "10.0.0.3";
        row "c1" "alice" "/post" "" 0 100 0 ["bob"] "10.0.0.1" ].
Proof.
  destruct (commentGetForAdmin_pages sample_lib sample_like Event.empty sample_listing
              admin_world eq_refl eq_refl eq_refl)
    as (rows & rows' & Hrun & _ & _ & Hpages & _); [by vm_compute|].
  exists rows, rows'. split; [by rewrite Hrun | exact Hpages].
Defined.
